(** * Print Studio backend: pricing engine and quote creation

    A shallow embedding of [main.py] (the [/price] and [/quotes] handlers)
    and of [schemas.py] (the [Service] and [QuoteRequest] models), with the
    properties of the pricing formula proved over it.

    Python's [float] is IEEE 754 binary64.  It is modelled by the Standard
    Library's [spec_float] at precision 53 and maximal exponent 1024, so
    every product, sum and quotient below is the correctly rounded one
    (round to nearest, ties to even), exactly as the interpreter computes
    it.  Python's [int] is unbounded and is modelled by [Z]; a [str] is
    held as the [string] of its UTF-8 encoding, its length being counted
    in characters by [str_len]; a dictionary is a [gmap].  An exception is
    a value of [exn], and a function that may raise returns a [result]. *)

From Stdlib Require Import ZArith List Ascii String Bool Lia.
From Stdlib Require Import Floats.SpecFloat.
From stdpp Require Import base option gmap strings pretty.

Local Open Scope string_scope.
Local Open Scope Z_scope.

(** ** Binary64 arithmetic *)

Module F64.

Definition prec : Z := 53.
Definition emax : Z := 1024.

Definition float : Type := spec_float.

Definition add : float -> float -> float := SFadd prec emax.
Definition mul : float -> float -> float := SFmul prec emax.
Definition div : float -> float -> float := SFdiv prec emax.

(** Comparisons are the IEEE ones: any comparison with a NaN is false. *)
Definition leb : float -> float -> bool := SFleb.

(** The integer [z] rounded to the nearest binary64 number. *)
Definition of_Z (z : Z) : float := binary_normalize prec emax z 0 false.

(** The float a decimal literal [n]e-[k] denotes, for instance
    [decimal 75 2] for [0.75]: numerator and power of ten are exact, and
    the division rounds their quotient correctly, as the parser does. *)
Definition decimal (n : Z) (k : Z) : float := div (of_Z n) (of_Z (10 ^ k)).

Definition is_finite (x : float) : bool :=
  match x with
  | S754_zero _ | S754_finite _ _ _ => true
  | _ => false
  end.

(** A float as the machine holds it: canonical mantissa, exponent in
    range. *)
Definition valid (x : float) : bool := valid_binary prec emax x.

End F64.

Abbreviation float := F64.float.

(** ** Exceptions *)

(** [ValidationError] is the one pydantic raises when a model is built in
    the handler from values that fail its constraints;
    [RequestValidationError] is the one the framework answers with when the
    body of a request fails its model.  Both carry the fields in error. *)
Inductive exn : Type :=
| HTTPException (status_code : Z) (detail : string)
| OverflowError (msg : string)
| RequestValidationError (loc : list string)
| ValidationError (loc : list string).

Inductive result (A : Type) : Type :=
| Ok (a : A)
| Raise (e : exn).
Arguments Ok {A} a.
Arguments Raise {A} e.

#[global] Instance result_ret : MRet result := fun _ a => Ok a.
#[global] Instance result_bind : MBind result := fun _ _ f m =>
  match m with
  | Ok a => f a
  | Raise e => Raise e
  end.

(** ** The Python primitives the handlers use *)

(** [float(z)] for an [int] operand of a mixed operation: the nearest
    binary64 number, ties to even; an [int] that rounds beyond the largest
    finite float raises. *)
Definition int_to_float (z : Z) : result float :=
  match F64.of_Z z with
  | S754_infinity _ => Raise (OverflowError "int too large to convert to float")
  | x => Ok x
  end.

(** [i * x] with [i : int] and [x : float]. *)
Definition int_mul_float (i : Z) (x : float) : result float :=
  y ← int_to_float i; mret (F64.mul y x).

(** [x * i] with [x : float] and [i : int]. *)
Definition float_mul_int (x : float) (i : Z) : result float :=
  y ← int_to_float i; mret (F64.mul x y).

(** The integer nearest to [a / b] for [b > 0], ties going to the even
    neighbour. *)
Definition div_half_even (a b : Z) : Z :=
  let q := a / b in
  match (2 * (a mod b) ?= b) with
  | Lt => q
  | Eq => if Z.even q then q else q + 1
  | Gt => q + 1
  end.

(** The integer nearest to [m * 2^e * 10^ndigits], ties to even. *)
Definition scaled_nearest (m : positive) (e : Z) (ndigits : N) : Z :=
  let p := Z.pos m * 10 ^ Z.of_N ndigits in
  if 0 <=? e then p * 2 ^ e else div_half_even p (2 ^ (- e)).

(** [round(x, ndigits)] on a float, for [ndigits >= 0].  The interpreter
    converts [x] exactly to decimal, rounds that to [ndigits] places after
    the point (ties to even, the sign is kept) and reads the decimal back
    as the nearest float.  NaN, the infinities and the zeros round to
    themselves, and so does everything when [ndigits] exceeds 323. *)
Definition py_round (x : float) (ndigits : N) : float :=
  match x with
  | S754_finite s m e =>
      if (323 <? ndigits)%N then x
      else
        match scaled_nearest m e ndigits with
        | Z.pos n =>
            F64.div (S754_finite s n 0)
                    (S754_finite false (Z.to_pos (10 ^ Z.of_N ndigits)) 0)
        | _ => S754_zero s
        end
  | _ => x
  end.

(** [len(s)] for a [str]: the number of its characters (code points).
    In UTF-8 a character is one byte that is not a continuation byte,
    followed by its continuation bytes, the bytes [0x80] to [0xBF]. *)
Definition is_continuation_byte (c : ascii) : bool :=
  let n := N_of_ascii c in ((128 <=? n) && (n <? 192))%N.

Fixpoint str_len (s : string) : nat :=
  match s with
  | EmptyString => O
  | String c s' =>
      if is_continuation_byte c then str_len s' else S (str_len s')
  end.

(** A model collects the fields whose constraint fails. *)
Definition check (ok : bool) (field : string) : list string :=
  if ok then [] else [field].

(** ** Data model ([schemas.py]) *)

Record Service : Type := {
  key : string;
  name : string;
  description : option string;
  base_price : float;
  categories : list string;
  color_price_per_color : float;
  print_area_multiplier : float;
  minimum_quantity : Z
}.

(** The [Field] constraints of [Service]: [ge=0], [ge=0], [ge=0.1] and
    [ge=1].  A NaN fails each float constraint. *)
Definition Service_valid (s : Service) : bool :=
  F64.leb (F64.of_Z 0) (base_price s)
  && F64.leb (F64.of_Z 0) (color_price_per_color s)
  && F64.leb (F64.decimal 1 1) (print_area_multiplier s)
  && (1 <=? minimum_quantity s).

(** The prices of a service are numbers: no infinity (a NaN is already
    excluded by [Service_valid]), and floats the machine can hold. *)
Definition Service_finite (s : Service) : bool :=
  F64.is_finite (base_price s) && F64.valid (base_price s)
  && F64.is_finite (color_price_per_color s)
  && F64.valid (color_price_per_color s)
  && F64.is_finite (print_area_multiplier s)
  && F64.valid (print_area_multiplier s).

(** [Service(...)] built from the values of a stored document: the values
    are kept when every constraint holds, and pydantic's [ValidationError]
    names the fields in error otherwise. *)
Definition Service_errors (doc : Service) : list string :=
  (check (F64.leb (F64.of_Z 0) (base_price doc)) "base_price"
   ++ check (F64.leb (F64.of_Z 0) (color_price_per_color doc))
            "color_price_per_color"
   ++ check (F64.leb (F64.decimal 1 1) (print_area_multiplier doc))
            "print_area_multiplier"
   ++ check (1 <=? minimum_quantity doc) "minimum_quantity")%list.

Definition Service_validate (doc : Service) : result Service :=
  match Service_errors doc with
  | [] => Ok doc
  | errors => Raise (ValidationError errors)
  end.

Record QuoteRequest : Type := {
  customer_name : string;
  customer_email : string;
  q_service_key : string;
  q_quantity : Z;
  q_colors : Z;
  q_print_area : string;
  notes : option string;
  estimated_total : option float
}.

(** ** Request and response of [/price] ([main.py]) *)

Record PriceRequest : Type := {
  service_key : string;
  quantity : Z;
  colors : Z;
  print_area : string
}.

(** The body of [/price] as it arrives decoded: the two fields with a
    default may be absent.  [PriceRequest] puts no constraint on a field,
    so every such body is accepted. *)
Record PriceRequestInput : Type := {
  p_service_key : string;
  p_quantity : Z;
  p_colors : option Z;
  p_print_area : option string
}.

Definition PriceRequest_validate (body : PriceRequestInput)
  : result PriceRequest :=
  Ok {| service_key := p_service_key body;
        quantity := p_quantity body;
        colors := default 1 (p_colors body);
        print_area := default "medium" (p_print_area body) |}.

Record Breakdown : Type := {
  base : float;
  bd_colors : Z;
  color_add_per_unit : float;
  area_multiplier : float;
  volume_discounts : bool
}.

Record PriceResponse : Type := {
  unit_price : float;
  total_price : float;
  breakdown : Breakdown
}.

(** ** The document store

    [db] is the module-level handle: [None] when no database is
    configured.  A configured database holds the two collections the
    handlers touch, [db["service"]] and [db["quoterequest"]], the documents
    of the latter with their identifiers.  A document of [service] carries
    the fields of the [Service] model with values of their types; the
    values are whatever was written to the collection, so they need not
    meet the constraints of the model, and a handler that rebuilds a
    [Service] from a document validates it again. *)

Record Database : Type := {
  coll_service : list Service;
  coll_quoterequest : list (string * QuoteRequest)
}.

(** [db["service"].find_one({"key": k})]: the first document whose key is
    [k]. *)
Definition find_one_service (d : Database) (k : string) : option Service :=
  List.find (fun s => String.eqb (key s) k) (coll_service d).

(** Modelled from the spec: [create_document] lives in [database.py], which
    is not among the sources.  The spec gives its contract as
    [insert(collection_name, document) -> generated_id]: the document is
    added to the collection and the identifier the store generated for it
    is returned.  How the store picks the identifier is not specified, so
    the generator is a parameter. *)
Definition create_document_quoterequest
    (generate_id : Database -> string) (d : Database) (q : QuoteRequest)
  : string * Database :=
  let doc_id := generate_id d in
  (doc_id, {| coll_service := coll_service d;
              coll_quoterequest := coll_quoterequest d ++ [(doc_id, q)] |}).

(** ** [calculate_price] *)

(** Line 126: the dictionary of area multipliers. *)
Definition area_multiplier_map (service : Service) : gmap string float :=
  {[ "small" := F64.decimal 9 1;
     "medium" := F64.of_Z 1;
     "large" := print_area_multiplier service ]}.

(** Lines 126 to 131: the unit price before the volume discount. *)
Definition pre_discount_unit_price (service : Service) (req : PriceRequest)
  : result float :=
  let area_mult :=
    default (F64.of_Z 1) (area_multiplier_map service !! print_area req) in
  let unit := base_price service in
  color_add ← int_mul_float (Z.max 0 (colors req - 1))
                            (color_price_per_color service);
  mret (py_round (F64.mul (F64.add unit color_add) area_mult) 2).

(** Lines 134 to 140: the volume discount and the second rounding. *)
Definition volume_discount (quantity : Z) (unit_price : float) : float :=
  let unit_price :=
    if 100 <=? quantity then F64.mul unit_price (F64.decimal 75 2)
    else if 50 <=? quantity then F64.mul unit_price (F64.decimal 82 2)
    else if 20 <=? quantity then F64.mul unit_price (F64.decimal 9 1)
    else unit_price in
  py_round unit_price 2.

Definition calculate_price (db : option Database) (req : PriceRequest)
  : result PriceResponse :=
  match db with
  | None => Raise (HTTPException 500 "Database not configured")
  | Some d =>
      match find_one_service d (service_key req) with
      | None => Raise (HTTPException 404 "Service not found")
      | Some svc_doc =>
          service ← Service_validate svc_doc;
          let area_mult :=
            default (F64.of_Z 1)
                    (area_multiplier_map service !! print_area req) in
          unit_price ← pre_discount_unit_price service req;
          let unit_price := volume_discount (quantity req) unit_price in
          if quantity req <? minimum_quantity service then
            Raise (HTTPException 400
                     ("Minimum quantity is " ++ pretty (minimum_quantity service)))
          else
            total ← float_mul_int unit_price (quantity req);
            let total_price := py_round total 2 in
            mret {| unit_price := unit_price;
                    total_price := total_price;
                    breakdown :=
                      {| base := base_price service;
                         bd_colors := colors req;
                         color_add_per_unit := color_price_per_color service;
                         area_multiplier := area_mult;
                         volume_discounts := true |} |}
      end
  end.

(** The [/price] route: the framework builds the [PriceRequest] from the
    body and calls the handler. *)
Definition post_price (db : option Database) (body : PriceRequestInput)
  : result PriceResponse :=
  req ← PriceRequest_validate body;
  calculate_price db req.

(** The body with another value of [colors]. *)
Definition body_with_colors (body : PriceRequestInput) (c : option Z)
  : PriceRequestInput :=
  {| p_service_key := p_service_key body; p_quantity := p_quantity body;
     p_colors := c; p_print_area := p_print_area body |}.

(** ** [create_quote] *)

Record QuoteResult : Type := {
  id : string;
  r_estimated_total : float
}.

(** The [PriceRequest] that [create_quote] builds from the quote. *)
Definition PriceRequest_of_quote (q : QuoteRequest) : PriceRequest :=
  {| service_key := q_service_key q;
     quantity := q_quantity q;
     colors := q_colors q;
     print_area := q_print_area q |}.

(** [q.estimated_total = t]. *)
Definition set_estimated_total (q : QuoteRequest) (t : option float)
  : QuoteRequest :=
  {| customer_name := customer_name q;
     customer_email := customer_email q;
     q_service_key := q_service_key q;
     q_quantity := q_quantity q;
     q_colors := q_colors q;
     q_print_area := q_print_area q;
     notes := notes q;
     estimated_total := t |}.

(** The handler returns its answer together with the store it leaves
    behind. *)
Definition create_quote (generate_id : Database -> string)
    (db : option Database) (q : QuoteRequest)
  : result QuoteResult * option Database :=
  match db with
  | None => (Raise (HTTPException 500 "Database not configured"), db)
  | Some d =>
      match calculate_price db (PriceRequest_of_quote q) with
      | Raise e => (Raise e, db)
      | Ok price =>
          let q := set_estimated_total q (Some (total_price price)) in
          let '(doc_id, d') := create_document_quoterequest generate_id d q in
          (Ok {| id := doc_id; r_estimated_total := total_price price |},
           Some d')
      end
  end.

(** ** Validation of the body of [/quotes] ([schemas.py], [QuoteRequest])

    The body arrives decoded: strings and integers already have their
    types, and the two fields with a default may be absent. *)

Record QuoteRequestInput : Type := {
  in_customer_name : string;
  in_customer_email : string;
  in_service_key : string;
  in_quantity : Z;
  in_colors : option Z;
  in_print_area : option string;
  in_notes : option string;
  in_estimated_total : option float
}.

Definition print_area_literal (a : string) : bool :=
  String.eqb a "small" || String.eqb a "medium" || String.eqb a "large".

(** The model is built only when no field is in error; otherwise the
    framework answers with the list of the fields that failed.
    [validate_email] is the [EmailStr] check of the [email-validator]
    package: [None] when the address is not syntactically valid, the
    normalised address otherwise. *)
Definition QuoteRequest_validate (validate_email : string -> option string)
    (body : QuoteRequestInput) : result QuoteRequest :=
  let colors := default 1 (in_colors body) in
  let print_area := default "medium" (in_print_area body) in
  let errors : list string :=
    (check (2 <=? Z.of_nat (str_len (in_customer_name body)))
           "customer_name"
     ++ check (bool_decide (is_Some (validate_email (in_customer_email body))))
              "customer_email"
     ++ check ((1 <=? in_quantity body) && (in_quantity body <=? 100000))
              "quantity"
     ++ check ((1 <=? colors) && (colors <=? 10)) "colors"
     ++ check (print_area_literal print_area) "print_area"
     ++ check (match in_estimated_total body with
               | Some t => F64.leb (F64.of_Z 0) t
               | None => true
               end) "estimated_total")%list in
  match errors with
  | [] =>
      Ok {| customer_name := in_customer_name body;
            customer_email :=
              default (in_customer_email body)
                      (validate_email (in_customer_email body));
            q_service_key := in_service_key body;
            q_quantity := in_quantity body;
            q_colors := colors;
            q_print_area := print_area;
            notes := in_notes body;
            estimated_total := in_estimated_total body |}
  | _ => Raise (RequestValidationError errors)
  end.

(** The [/quotes] route: the framework validates the body into a
    [QuoteRequest] and only then calls the handler. *)
Definition post_quotes (validate_email : string -> option string)
    (generate_id : Database -> string)
    (db : option Database) (body : QuoteRequestInput)
  : result QuoteResult * option Database :=
  match QuoteRequest_validate validate_email body with
  | Raise e => (Raise e, db)
  | Ok q => create_quote generate_id db q
  end.

(** ** The pricing rules as the specification words them *)

Module Spec.

(** [small -> 0.9], [medium -> 1.0], [large -> print_area_multiplier],
    anything else [1.0]. *)
Definition area_multiplier (service : Service) (print_area : string)
  : float :=
  if String.eqb print_area "small" then F64.decimal 9 1
  else if String.eqb print_area "medium" then F64.of_Z 1
  else if String.eqb print_area "large" then print_area_multiplier service
  else F64.of_Z 1.

(** [color_add = max(0, colors - 1) * color_price_per_color]. *)
Definition color_add (service : Service) (colors : Z) : result float :=
  int_mul_float (Z.max 0 (colors - 1)) (color_price_per_color service).

(** [round((base_price + color_add) * area_multiplier, 2)]. *)
Definition unit_price_before_discount (service : Service) (colors : Z)
    (print_area : string) : result float :=
  c ← color_add service colors;
  mret (py_round (F64.mul (F64.add (base_price service) c)
                          (area_multiplier service print_area)) 2).

(** The factor of the one tier that applies, highest threshold first;
    [None] below 20. *)
Definition discount_factor (quantity : Z) : option float :=
  if 100 <=? quantity then Some (F64.decimal 75 2)
  else if 50 <=? quantity then Some (F64.decimal 82 2)
  else if 20 <=? quantity then Some (F64.decimal 9 1)
  else None.

Definition unit_price_after_discount (quantity : Z) (unit_price : float)
  : float :=
  py_round (match discount_factor quantity with
            | Some f => F64.mul unit_price f
            | None => unit_price
            end) 2.

End Spec.

(** ** Worked data *)

(** The first service that [seed_services] writes. *)
Definition tshirt : Service :=
  {| key := "tshirt"; name := "T‑Shirt Printing";
     description := Some "DTG and screen printing for tees";
     base_price := F64.of_Z 6; categories := ["apparel"; "tshirt"];
     color_price_per_color := F64.decimal 35 2;
     print_area_multiplier := F64.of_Z 1; minimum_quantity := 1 |}.

Definition seeded : Database :=
  {| coll_service := [tshirt]; coll_quoterequest := [] |}.

Definition with_colors (req : PriceRequest) (c : Z) : PriceRequest :=
  {| service_key := service_key req; quantity := quantity req;
     colors := c; print_area := print_area req |}.

(** The exception of an [int] too large for a float. *)
Definition overflow : exn :=
  OverflowError "int too large to convert to float".

(** What the specification asks of the body of [/quotes]. *)
Definition well_formed (validate_email : string -> option string)
    (body : QuoteRequestInput) : Prop :=
  2 <= Z.of_nat (str_len (in_customer_name body))
  /\ is_Some (validate_email (in_customer_email body))
  /\ 1 <= in_quantity body <= 100000
  /\ 1 <= default 1 (in_colors body) <= 10
  /\ In (default "medium" (in_print_area body)) ["small"; "medium"; "large"].

(** The price before the discount as a function of the number of extra
    colors, once that number is a float. *)
Definition price_of_extra (service : Service) (a : string) (extra : float)
  : float :=
  py_round
    (F64.mul (F64.add (base_price service)
                      (F64.mul extra (color_price_per_color service)))
             (Spec.area_multiplier service a)) 2.

(** ** [seed_services] and [list_services] *)

(** The three services of [seed_services], lines 61 to 92.  The name of the
    first one has a non-breaking hyphen, which takes three elements of the
    string; no length is taken of a name. *)
Definition defaults : list Service :=
  [ {| key := "tshirt"; name := "T‑Shirt Printing";
       description := Some "DTG and screen printing for tees";
       base_price := F64.of_Z 6; categories := ["apparel"; "tshirt"];
       color_price_per_color := F64.decimal 35 2;
       print_area_multiplier := F64.of_Z 1; minimum_quantity := 1 |};
    {| key := "tote_bag"; name := "Tote Bag Printing";
       description := Some "Durable cotton tote prints";
       base_price := F64.of_Z 4; categories := ["bags"; "tote"];
       color_price_per_color := F64.decimal 25 2;
       print_area_multiplier := F64.decimal 11 1; minimum_quantity := 1 |};
    {| key := "hoodie"; name := "Hoodie Printing";
       description := Some "Premium hoodies with vivid prints";
       base_price := F64.of_Z 12; categories := ["apparel"; "hoodie"];
       color_price_per_color := F64.decimal 4 1;
       print_area_multiplier := F64.decimal 12 1; minimum_quantity := 1 |} ].

(** Modelled from the spec: [create_document] of [database.py] on the
    [service] collection, with the contract
    [insert(collection_name, document) -> generated_id].  The identifier is
    dropped again when a document is read back into a [Service]. *)
Definition create_document_service
    (generate_id : Database -> string) (d : Database) (s : Service)
  : string * Database :=
  (generate_id d, {| coll_service := coll_service d ++ [s];
                     coll_quoterequest := coll_quoterequest d |}).

(** The dictionary that [seed_services] returns: [seeded] with either
    [message] or [count]. *)
Record SeedResponse : Type := {
  seeded_flag : bool;
  message : option string;
  count : option Z
}.

(** Lines 53 to 97. *)
Definition seed_services (generate_id : Database -> string)
    (db : option Database) : result SeedResponse * option Database :=
  match db with
  | None => (Raise (HTTPException 500 "Database not configured"), db)
  | Some d =>
      let existing := Z.of_nat (length (coll_service d)) in
      if 0 <? existing then
        (Ok {| seeded_flag := false;
               message := Some "Services already exist";
               count := None |}, db)
      else
        let d' :=
          fold_left
            (fun d s => snd (create_document_service generate_id d s))
            defaults d in
        (Ok {| seeded_flag := true; message := None;
               count := Some (Z.of_nat (length defaults)) |}, Some d')
  end.

(** Modelled from the spec: [get_documents] of [database.py] on the
    [service] collection, with the contract
    [list_all(collection_name) -> sequence of documents].  What it raises
    without a configured store is not among the sources: the exception is a
    parameter. *)
Definition get_documents_service (unavailable : exn) (db : option Database)
  : result (list Service) :=
  match db with
  | None => Raise unavailable
  | Some d => Ok (coll_service d)
  end.

(** Lines 111 to 114: every document, rebuilt as a [Service]; the first
    document that fails the model ends the comprehension. *)
Definition list_services (unavailable : exn) (db : option Database)
  : result (list Service) :=
  docs ← get_documents_service unavailable db;
  mapM Service_validate docs.

(** The constraint [ge=0] on an [estimated_total] that the caller sent. *)
Definition estimated_total_ok (body : QuoteRequestInput) : Prop :=
  match in_estimated_total body with
  | Some t => F64.leb (F64.of_Z 0) t = true
  | None => True
  end.

(** ** Requests that differ in one field, and bounds *)

Definition with_quantity (req : PriceRequest) (n : Z) : PriceRequest :=
  {| service_key := service_key req; quantity := n;
     colors := colors req; print_area := print_area req |}.

Definition with_print_area (req : PriceRequest) (a : string) : PriceRequest :=
  {| service_key := service_key req; quantity := quantity req;
     colors := colors req; print_area := a |}.

(** The factor that [volume_discount] applies, [1.0] standing for no
    discount. *)
Definition applied_factor (quantity : Z) : float :=
  match Spec.discount_factor quantity with
  | Some f => f
  | None => F64.of_Z 1
  end.

(** The least integer that is too large for a float: halfway between the
    largest float and [2^1024]. *)
Definition int_max : Z := 2 ^ 1024 - 2 ^ 970.

(** * Notions used to reason about rounding *)

(** Values are counted in units of [2^-2200 / 100]: every real number that
    the pricing formula meets (a float, an exact product or sum of two
    floats, an integer divided by 100) is a whole number of them. *)
Definition bias : Z := 2200.
Definition grain (e : Z) : Z := 100 * 2 ^ (e + bias).

Abbreviation fexp64 := (fexp F64.prec F64.emax).

(** [located X m e l]: the value [X] lies in the slice [[m, m+1) * 2^e] at
    the place that [l] tells. *)
Definition located (X m e : Z) (l : location) : Prop :=
  match l with
  | loc_Exact => X = m * grain e
  | loc_Inexact Lt => m * grain e < X /\ 2 * X < (2 * m + 1) * grain e
  | loc_Inexact Eq => 2 * X = (2 * m + 1) * grain e
  | loc_Inexact Gt => (2 * m + 1) * grain e < 2 * X /\ X < (m + 1) * grain e
  end.

(** [nearest X step n]: [n * step] is the multiple of [step] nearest to
    [X], the even one when two are equally near. *)
Definition nearest (X step n : Z) : Prop :=
  (2 * n - 1) * step <= 2 * X <= (2 * n + 1) * step
  /\ (2 * X = (2 * n - 1) * step \/ 2 * X = (2 * n + 1) * step ->
      Z.even n = true).

(** The float made of the rounded mantissa [n] at exponent [fe]. *)
Definition encode (n fe : Z) : spec_float :=
  if n =? 0 then S754_zero false
  else if n <? 2 ^ 53 then
    if fe <=? 971 then S754_finite false (Z.to_pos n) fe
    else S754_infinity false
  else if fe + 1 <=? 971 then S754_finite false (Z.to_pos (2 ^ 52)) (fe + 1)
  else S754_infinity false.

(** [rounds_to X f]: [f] is the positive value [X] rounded to binary64, to
    nearest with ties to even. *)
Definition rounds_to (X : Z) (f : spec_float) : Prop :=
  exists d n,
    - bias < d
    /\ grain (d - 1) <= X < grain d
    /\ nearest X (grain (fexp64 d)) n
    /\ f = encode n (fexp64 d).

Definition val (m : positive) (e : Z) : Z := Z.pos m * grain e.

(** A zero of either sign, a positive float the machine can hold, or plus
    infinity. *)
Definition nonneg (x : spec_float) : Prop :=
  match x with
  | S754_zero _ => True
  | S754_finite s m e => s = false /\ bounded F64.prec F64.emax m e = true
  | S754_infinity s => s = false
  | S754_nan => False
  end.

(** [x <= y] between two such floats. *)
Definition le_nonneg (x y : spec_float) : Prop :=
  nonneg x /\ nonneg y /\ SFleb x y = true.

(** A positive float the machine can hold. *)
Definition positive_finite (x : spec_float) : Prop :=
  exists m e,
    x = S754_finite false m e /\ bounded F64.prec F64.emax m e = true.

(** * Properties *)

(** ** Binary64 rounding *)

Lemma grain_pos e : - bias <= e -> 0 < grain e.
Proof.
  intros He. unfold grain.
  assert (0 < 2 ^ (e + bias)) by (apply Z.pow_pos_nonneg; lia). lia.
Qed.

Lemma grain_add e k :
  - bias <= e -> 0 <= k -> grain (e + k) = 2 ^ k * grain e.
Proof.
  intros He Hk. unfold grain.
  replace (e + k + bias) with (k + (e + bias)) by lia.
  rewrite Z.pow_add_r by lia. lia.
Qed.

Lemma grain_succ e : - bias <= e -> grain (e + 1) = 2 * grain e.
Proof. intros He. by rewrite grain_add by lia. Qed.

Lemma grain_le e e' : - bias <= e <= e' -> grain e <= grain e'.
Proof.
  intros He. replace e' with (e + (e' - e)) by lia.
  rewrite grain_add by lia.
  pose proof (grain_pos e ltac:(lia)).
  assert (0 < 2 ^ (e' - e)) by (apply Z.pow_pos_nonneg; lia). nia.
Qed.

Lemma grain_lt e e' : - bias <= e < e' -> 2 * grain e <= grain e'.
Proof.
  intros He. rewrite <- grain_succ by lia. apply grain_le. lia.
Qed.

(** ** Number of binary digits *)

Lemma digits2_pos_size p : digits2_pos p = Pos.size p.
Proof. induction p; simpl; congruence. Qed.

Lemma Zdigits2_bounds p :
  2 ^ (Z.pos (digits2_pos p) - 1) <= Z.pos p < 2 ^ Z.pos (digits2_pos p).
Proof.
  rewrite digits2_pos_size. split.
  - pose proof (Pos.size_le p) as Hle.
    apply Pos2Z.pos_le_pos in Hle.
    rewrite Pos2Z.inj_pow in Hle.
    replace (Z.pos (Pos.size p)) with (Z.pos (Pos.size p) - 1 + 1) in Hle
      by lia.
    rewrite Z.pow_add_r in Hle by lia. lia.
  - pose proof (Pos.size_gt p) as Hgt.
    apply Pos2Z.pos_lt_pos in Hgt.
    by rewrite Pos2Z.inj_pow in Hgt.
Qed.

Lemma digits_unique p d :
  2 ^ (d - 1) <= Z.pos p < 2 ^ d -> Z.pos (digits2_pos p) = d.
Proof.
  intros [Hlo Hhi]. pose proof (Zdigits2_bounds p) as [Hlo' Hhi'].
  set (d' := Z.pos (digits2_pos p)) in *.
  assert (0 < d).
  { destruct d as [|d|d]; [|lia|].
    - change (2 ^ 0) with 1 in Hhi. lia.
    - rewrite Z.pow_neg_r in Hhi; lia. }
  destruct (Z.lt_trichotomy d d') as [Hlt|[Heq|Hgt]]; [|done|].
  - assert (2 ^ d <= 2 ^ (d' - 1)) by (apply Z.pow_le_mono_r; lia). lia.
  - assert (2 ^ d' <= 2 ^ (d - 1)) by (apply Z.pow_le_mono_r; lia). lia.
Qed.

(** ** Locations and shifts *)

Lemma fexp64_eq d : fexp64 d = Z.max (d - 53) (-1074).
Proof. reflexivity. Qed.

Lemma located_bounds X m e l :
  - bias <= e -> located X m e l ->
  m * grain e <= X < (m + 1) * grain e.
Proof.
  intros He. pose proof (grain_pos e He).
  destruct l as [|[]]; simpl; nia.
Qed.

Lemma loc_of_shr_record_of_loc m l :
  loc_of_shr_record (shr_record_of_loc m l) = l
  /\ shr_m (shr_record_of_loc m l) = m.
Proof. by destruct l as [|[]]. Qed.

Lemma shr_1_located X mrs e :
  0 <= shr_m mrs -> - bias <= e ->
  located X (shr_m mrs) e (loc_of_shr_record mrs) ->
  0 <= shr_m (shr_1 mrs)
  /\ located X (shr_m (shr_1 mrs)) (e + 1) (loc_of_shr_record (shr_1 mrs)).
Proof.
  intros Hm He. pose proof (grain_pos e He) as Hg.
  destruct mrs as [m r s]. unfold located. simpl in Hm.
  destruct m as [|[p|p|]|p]; [| | | |lia]; destruct r, s; simpl;
    rewrite ?grain_succ by done; lia.
Qed.

Lemma iter_shr_1_located X p : forall mrs e,
  0 <= shr_m mrs -> - bias <= e ->
  located X (shr_m mrs) e (loc_of_shr_record mrs) ->
  0 <= shr_m (SpecFloat.iter_pos shr_1 p mrs)
  /\ located X (shr_m (SpecFloat.iter_pos shr_1 p mrs)) (e + Z.pos p)
       (loc_of_shr_record (SpecFloat.iter_pos shr_1 p mrs)).
Proof.
  induction p as [p IH|p IH|]; intros mrs e Hm He Hloc; simpl.
  - destruct (shr_1_located X mrs e Hm He Hloc) as [Hm1 Hloc1].
    destruct (IH _ (e + 1) Hm1 ltac:(lia) Hloc1) as [Hm2 Hloc2].
    destruct (IH _ (e + 1 + Z.pos p) Hm2 ltac:(lia) Hloc2) as [Hm3 Hloc3].
    split; [done|].
    by replace (e + Z.pos p~1) with (e + 1 + Z.pos p + Z.pos p) by lia.
  - destruct (IH _ e Hm He Hloc) as [Hm2 Hloc2].
    destruct (IH _ (e + Z.pos p) Hm2 ltac:(lia) Hloc2) as [Hm3 Hloc3].
    split; [done|].
    by replace (e + Z.pos p~0) with (e + Z.pos p + Z.pos p) by lia.
  - by apply shr_1_located.
Qed.

Lemma shr_fexp_located X m e l :
  0 <= m -> - bias <= e -> e <= fexp64 (Zdigits2 m + e) ->
  located X m e l ->
  exists mrs,
    shr_fexp F64.prec F64.emax m e l = (mrs, fexp64 (Zdigits2 m + e))
    /\ 0 <= shr_m mrs
    /\ located X (shr_m mrs) (fexp64 (Zdigits2 m + e)) (loc_of_shr_record mrs).
Proof.
  intros Hm He Hprec Hloc. unfold shr_fexp, shr.
  destruct (loc_of_shr_record_of_loc m l) as [Hl Hsm].
  destruct (fexp64 (Zdigits2 m + e) - e) as [|k|k] eqn:Hk; [| |lia].
  - exists (shr_record_of_loc m l).
    replace (fexp64 (Zdigits2 m + e)) with e by lia.
    by rewrite Hl, Hsm.
  - exists (SpecFloat.iter_pos shr_1 k (shr_record_of_loc m l)).
    replace (fexp64 (Zdigits2 m + e)) with (e + Z.pos k) by lia.
    split; [done|].
    apply iter_shr_1_located; [by rewrite Hsm|done|by rewrite Hl, Hsm].
Qed.

Lemma round_nearest_even_located X m e l :
  - bias <= e -> located X m e l ->
  nearest X (grain e) (round_nearest_even m l).
Proof.
  intros He. pose proof (grain_pos e He) as Hg. unfold nearest.
  destruct l as [|[]]; simpl.
  - intros ->. split; [nia|]. intros [?|?]; nia.
  - intros Hloc. destruct (Z.even m) eqn:Hev.
    + split; [nia|]. intros _. done.
    + split; [nia|]. intros _.
      by rewrite Z.add_1_r, Z.even_succ, <- Z.negb_even, Hev.
  - intros [? ?]. split; [nia|]. intros [?|?]; nia.
  - intros [? ?]. split; [nia|]. intros [?|?]; nia.
Qed.

(** ** The result of a rounding *)

Lemma nearest_bounds X d n :
  - bias < d -> grain (d - 1) <= X < grain d ->
  nearest X (grain (fexp64 d)) n ->
  0 <= n <= 2 ^ 53 /\ (-1074 < fexp64 d -> 2 ^ 52 <= n).
Proof.
  intros Hd [Hlo Hhi] [[Hn1 Hn2] _].
  rewrite fexp64_eq in *. set (fe := Z.max (d - 53) (-1074)) in *.
  assert (Hfe : - bias <= fe) by (unfold bias; lia).
  pose proof (grain_pos fe Hfe) as Hg.
  pose proof (grain_pos (d - 1) ltac:(lia)) as Hg1.
  change (2 ^ 53) with 9007199254740992.
  change (2 ^ 52) with 4503599627370496.
  split; [split|].
  - nia.
  - destruct (Z.le_gt_cases fe d) as [Hle|Hgt].
    + assert (grain d <= 2 ^ 53 * grain fe) as Hgd.
      { replace d with (fe + (d - fe)) at 1 by lia.
        rewrite grain_add by lia.
        assert (2 ^ (d - fe) <= 2 ^ 53) by (apply Z.pow_le_mono_r; lia).
        nia. }
      change (2 ^ 53) with 9007199254740992 in Hgd. nia.
    + pose proof (grain_le d fe ltac:(lia)). nia.
  - intros Hnormal. assert (fe = d - 53) as Hfed by lia.
    assert (grain (d - 1) = 2 ^ 52 * grain fe) as Hgd.
    { replace (d - 1) with (fe + 52) by lia. by rewrite grain_add by lia. }
    change (2 ^ 52) with 4503599627370496 in Hgd. nia.
Qed.

Lemma renormalize_encode n fe :
  0 <= n <= 2 ^ 53 -> -1074 <= fe -> (-1074 < fe -> 2 ^ 52 <= n) ->
  (let '(mrs, e'') := shr_fexp F64.prec F64.emax n fe loc_Exact in
   match shr_m mrs with
   | Z0 => S754_zero false
   | Z.pos m =>
       if e'' <=? F64.emax - F64.prec then S754_finite false m e''
       else S754_infinity false
   | Z.neg _ => S754_nan
   end) = encode n fe.
Proof.
  intros [Hn0 Hn53] Hfe Hnormal. unfold shr_fexp, shr, encode.
  change (F64.emax - F64.prec) with 971.
  destruct n as [|p|p]; [| |lia].
  - simpl Zdigits2. rewrite fexp64_eq.
    by destruct (Z.max (0 + fe - 53) (-1074) - fe) eqn:Hk; [| lia |].
  - destruct (Z.ltb_spec (Z.pos p) (2 ^ 53)) as [Hlt|Hge].
    + pose proof (Zdigits2_bounds p) as [Hd1 Hd2]. simpl Zdigits2.
      assert (Z.pos (digits2_pos p) <= 53) as Hd.
      { destruct (Z.le_gt_cases (Z.pos (digits2_pos p)) 53); [done|].
        assert (2 ^ 53 <= 2 ^ (Z.pos (digits2_pos p) - 1))
          by (apply Z.pow_le_mono_r; lia). lia. }
      assert (fexp64 (Z.pos (digits2_pos p) + fe) - fe = 0) as ->.
      { rewrite fexp64_eq.
        destruct (Z.eq_dec fe (-1074)) as [->|Hne]; [lia|].
        rewrite (digits_unique p 53); [lia|].
        specialize (Hnormal ltac:(lia)). lia. }
      done.
    + assert (Z.pos p = 2 ^ 53) as Hp by lia.
      change (2 ^ 53) with (Z.pos (2 ^ 53)) in Hp. injection Hp as ->.
      change (Zdigits2 (Z.pos (2 ^ 53))) with 54.
      assert (fexp64 (54 + fe) - fe = 1) as -> by (rewrite fexp64_eq; lia).
      simpl. by replace (fe + 1 <=? 971) with (fe + 1 <=? 971) by done.
Qed.

Lemma binary_round_aux_spec X p e l :
  - bias <= e -> e <= fexp64 (Z.pos (digits2_pos p) + e) ->
  located X (Z.pos p) e l ->
  rounds_to X (binary_round_aux F64.prec F64.emax false (Z.pos p) e l).
Proof.
  intros He Hprec Hloc.
  pose proof (grain_pos e He) as Hg.
  pose proof (located_bounds _ _ _ _ He Hloc) as [Hlo Hhi].
  pose proof (Zdigits2_bounds p) as [Hd1 Hd2].
  set (dm := Z.pos (digits2_pos p)) in *.
  assert (Hbounds : grain (dm + e - 1) <= X < grain (dm + e)).
  { replace (dm + e - 1) with (e + (dm - 1)) by lia.
    replace (dm + e) with (e + dm) by lia.
    rewrite !grain_add by lia. nia. }
  destruct (shr_fexp_located X (Z.pos p) e l ltac:(lia) He Hprec Hloc)
    as (mrs & Hshr & Hm & Hloc').
  change (Zdigits2 (Z.pos p)) with dm in *.
  assert (Hfe : -1074 <= fexp64 (dm + e)) by (rewrite fexp64_eq; lia).
  assert (Hfe' : - bias <= fexp64 (dm + e)) by (unfold bias; lia).
  pose proof (round_nearest_even_located _ _ _ _ Hfe' Hloc') as Hnear.
  pose proof (nearest_bounds X (dm + e) _ ltac:(lia) Hbounds Hnear)
    as [Hn Hnormal].
  exists (dm + e), (round_nearest_even (shr_m mrs) (loc_of_shr_record mrs)).
  split; [lia|]. split; [done|]. split; [done|].
  unfold binary_round_aux. rewrite Hshr.
  by apply renormalize_encode.
Qed.

(** ** Rounding is monotone *)

Lemma nearest_mono X Y step n k :
  0 < step -> X <= Y -> nearest X step n -> nearest Y step k -> n <= k.
Proof.
  intros Hs HXY [[Hn1 Hn2] Hne] [[Hk1 Hk2] Hke].
  assert (n <= k + 1) as Hle by nia.
  destruct (Z.eq_dec n (k + 1)) as [->|]; [|lia].
  assert (2 * X = (2 * (k + 1) - 1) * step) as HX by nia.
  assert (2 * Y = (2 * k + 1) * step) as HY by nia.
  specialize (Hne (or_introl HX)). specialize (Hke (or_intror HY)).
  rewrite Z.add_1_r, Z.even_succ, <- Z.negb_even, Hke in Hne. done.
Qed.

Lemma SFleb_finite_pos m e m' e' :
  e < e' \/ (e = e' /\ (m <= m')%positive) ->
  SFleb (S754_finite false m e) (S754_finite false m' e') = true.
Proof.
  unfold SFleb, SFcompare. intros [Hlt|[-> Hle]].
  - by rewrite (proj2 (Z.compare_lt_iff _ _) Hlt).
  - rewrite Z.compare_refl. fold (Pos.compare m m').
    by destruct (m ?= m')%positive eqn:Hc.
Qed.

Lemma encode_mono_same n k fe :
  0 <= n <= k -> k <= 2 ^ 53 ->
  SFleb (encode n fe) (encode k fe) = true.
Proof.
  intros Hnk Hk. unfold encode.
  destruct (Z.eqb_spec n 0), (Z.eqb_spec k 0); try lia;
    destruct (Z.ltb_spec n (2 ^ 53)), (Z.ltb_spec k (2 ^ 53)); try lia;
    destruct (Z.leb_spec fe 971), (Z.leb_spec (fe + 1) 971); try lia;
    try done; apply SFleb_finite_pos; lia.
Qed.

Lemma encode_mono_lt n k fe fe' :
  0 <= n <= 2 ^ 53 -> 2 ^ 52 <= k <= 2 ^ 53 -> fe < fe' ->
  SFleb (encode n fe) (encode k fe') = true.
Proof.
  intros Hn Hk Hfe. unfold encode.
  change (2 ^ 52) with 4503599627370496 in *.
  change (2 ^ 53) with 9007199254740992 in *.
  destruct (Z.eqb_spec n 0), (Z.eqb_spec k 0); try lia;
    destruct (Z.ltb_spec n 9007199254740992),
      (Z.ltb_spec k 9007199254740992); try lia;
    destruct (Z.leb_spec fe 971), (Z.leb_spec (fe + 1) 971),
      (Z.leb_spec fe' 971), (Z.leb_spec (fe' + 1) 971); try lia;
    try done; apply SFleb_finite_pos; lia.
Qed.

Lemma rounds_to_mono X Y f g :
  rounds_to X f -> rounds_to Y g -> X <= Y -> SFleb f g = true.
Proof.
  intros (dx & n & Hdx & HX & Hn & ->) (dy & k & Hdy & HY & Hk & ->) HXY.
  pose proof (nearest_bounds _ _ _ Hdx HX Hn) as [Hnb Hnn].
  pose proof (nearest_bounds _ _ _ Hdy HY Hk) as [Hkb Hkn].
  assert (dx <= dy) as Hd.
  { destruct (Z.le_gt_cases dx dy); [done|].
    pose proof (grain_le dy (dx - 1) ltac:(lia)). lia. }
  rewrite !fexp64_eq in *.
  destruct (Z.eq_dec (Z.max (dx - 53) (-1074)) (Z.max (dy - 53) (-1074)))
    as [Heq|Hne].
  - rewrite Heq in *.
    apply encode_mono_same; [|lia]. split; [lia|].
    eapply (nearest_mono X Y); [|done..].
    apply grain_pos. unfold bias. lia.
  - apply encode_mono_lt; [lia| |lia].
    split; [|lia]. apply Hkn. lia.
Qed.

(** ** Floats as values *)

Lemma bounded_canonical m e :
  bounded F64.prec F64.emax m e = true ->
  e = fexp64 (Z.pos (digits2_pos m) + e) /\ e <= 971.
Proof.
  unfold bounded, canonical_mantissa.
  intros [He Hle]%andb_true_iff.
  apply Z.eqb_eq in He. apply Z.leb_le in Hle.
  change (F64.emax - F64.prec) with 971 in Hle. done.
Qed.

Lemma bounded_rounds_to m e :
  bounded F64.prec F64.emax m e = true ->
  rounds_to (val m e) (S754_finite false m e).
Proof.
  intros [Hc He]%bounded_canonical. rewrite fexp64_eq in Hc.
  pose proof (Zdigits2_bounds m) as [Hd1 Hd2].
  set (dm := Z.pos (digits2_pos m)) in *.
  assert (- bias <= e) as Hb by (unfold bias; lia).
  pose proof (grain_pos e Hb) as Hg.
  assert (Z.pos m < 2 ^ 53) as Hm53.
  { assert (2 ^ dm <= 2 ^ 53) by (apply Z.pow_le_mono_r; lia). lia. }
  exists (dm + e), (Z.pos m). unfold val.
  split; [unfold bias in *; lia|]. split; [|split].
  - replace (dm + e - 1) with (e + (dm - 1)) by lia.
    replace (dm + e) with (e + dm) by lia.
    rewrite !grain_add by lia. nia.
  - rewrite fexp64_eq, <- Hc. split; [nia|]. intros [?|?]; nia.
  - rewrite fexp64_eq, <- Hc. unfold encode.
    rewrite (proj2 (Z.ltb_lt _ _) Hm53), (proj2 (Z.leb_le _ _) He).
    done.
Qed.

Lemma bounded_leb_val m e m' e' :
  bounded F64.prec F64.emax m e = true ->
  bounded F64.prec F64.emax m' e' = true ->
  SFleb (S754_finite false m e) (S754_finite false m' e') = true ->
  val m e <= val m' e'.
Proof.
  intros [Hc He]%bounded_canonical [Hc' He']%bounded_canonical.
  rewrite fexp64_eq in Hc, Hc'.
  pose proof (Zdigits2_bounds m) as [Hd1 Hd2].
  pose proof (Zdigits2_bounds m') as [Hd1' Hd2'].
  set (dm := Z.pos (digits2_pos m)) in *.
  set (dm' := Z.pos (digits2_pos m')) in *.
  assert (- bias <= e) as Hb by (unfold bias; lia).
  assert (- bias <= e') as Hb' by (unfold bias; lia).
  pose proof (grain_pos e Hb) as Hg.
  pose proof (grain_pos e' Hb') as Hg'.
  unfold SFleb, SFcompare, val.
  destruct (Z.compare_spec e e') as [->|Hlt|Hgt]; [| |done].
  - fold (Pos.compare m m').
    destruct (m ?= m')%positive eqn:Hcmp; [| |done]; intros _.
    + apply Pos.compare_eq in Hcmp as ->. lia.
    + apply Pos.compare_lt_iff, Pos2Z.pos_lt_pos in Hcmp.
      apply Z.mul_le_mono_nonneg_r; lia.
  - intros _. assert (dm' = 53) as Hdm' by lia.
    assert (2 ^ dm <= 2 ^ 53) by (apply Z.pow_le_mono_r; lia).
    rewrite Hdm' in Hd1'. change (2 ^ (53 - 1)) with (2 ^ 52) in Hd1'.
    pose proof (grain_le (e + 1) e' ltac:(lia)) as Hge.
    rewrite grain_succ in Hge by done.
    change (2 ^ 52) with 4503599627370496 in *.
    change (2 ^ 53) with 9007199254740992 in *. nia.
Qed.

(** ** The operations round their exact result *)

Lemma iter_xO m d : Z.pos (Pos.iter xO m d) = Z.pos m * 2 ^ Z.pos d.
Proof.
  induction d as [|d IH] using Pos.peano_ind.
  - simpl. lia.
  - rewrite Pos.iter_succ, Pos2Z.inj_succ, Z.pow_succ_r by lia.
    rewrite Pos2Z.inj_xO, IH. lia.
Qed.

Lemma shl_align_spec m e e' :
  snd (shl_align m e e') = Z.min e e'
  /\ Z.pos (fst (shl_align m e e'))
     = Z.pos m * 2 ^ (e - snd (shl_align m e e')).
Proof.
  unfold shl_align. destruct (e' - e) as [|d|d] eqn:Hd; simpl.
  - split; [lia|]. rewrite Z.sub_diag. simpl. lia.
  - split; [lia|]. rewrite Z.sub_diag. simpl. lia.
  - split; [lia|]. rewrite iter_xO. f_equal. f_equal. lia.
Qed.

Lemma digits_shift m k :
  0 <= k ->
  forall p, Z.pos p = Z.pos m * 2 ^ k ->
  Z.pos (digits2_pos p) = Z.pos (digits2_pos m) + k.
Proof.
  intros Hk p Hp. apply digits_unique. rewrite Hp.
  pose proof (Zdigits2_bounds m) as [Hd1 Hd2].
  assert (0 < 2 ^ k) by (apply Z.pow_pos_nonneg; lia).
  replace (Z.pos (digits2_pos m) + k - 1)
    with (Z.pos (digits2_pos m) - 1 + k) by lia.
  rewrite !Z.pow_add_r by lia. nia.
Qed.

Lemma binary_round_spec m e :
  - bias <= e ->
  rounds_to (val m e) (binary_round F64.prec F64.emax false m e).
Proof.
  intros He. unfold binary_round.
  set (fe := fexp64 (Z.pos (digits2_pos m) + e)).
  pose proof (shl_align_spec m e fe) as [Hez Hmz].
  destruct (shl_align m e fe) as [mz ez]. simpl in Hez, Hmz.
  assert (-1074 <= fe) as Hfe by (unfold fe; rewrite fexp64_eq; lia).
  assert (- bias <= ez) as Hbez by (unfold bias in *; lia).
  pose proof (digits_shift m (e - ez) ltac:(lia) mz Hmz) as Hdz.
  apply binary_round_aux_spec; [done| |].
  - rewrite Hdz.
    replace (Z.pos (digits2_pos m) + (e - ez) + ez)
      with (Z.pos (digits2_pos m) + e) by lia.
    fold fe. lia.
  - simpl. unfold val. rewrite Hmz.
    assert (grain e = 2 ^ (e - ez) * grain ez) as ->; [|lia].
    rewrite <- grain_add by lia. f_equal. lia.
Qed.

Lemma of_Z_spec p : rounds_to (val p 0) (F64.of_Z (Z.pos p)).
Proof. apply binary_round_spec. unfold bias. lia. Qed.

Lemma mul_spec mx ex my ey :
  bounded F64.prec F64.emax mx ex = true ->
  bounded F64.prec F64.emax my ey = true ->
  rounds_to (Z.pos mx * Z.pos my * grain (ex + ey))
    (F64.mul (S754_finite false mx ex) (S754_finite false my ey)).
Proof.
  intros [Hcx Hex]%bounded_canonical [Hcy Hey]%bounded_canonical.
  rewrite fexp64_eq in Hcx, Hcy.
  pose proof (Zdigits2_bounds mx) as [Hx1 Hx2].
  pose proof (Zdigits2_bounds my) as [Hy1 Hy2].
  pose proof (Zdigits2_bounds (mx * my)) as [Hz1 Hz2].
  set (dx := Z.pos (digits2_pos mx)) in *.
  set (dy := Z.pos (digits2_pos my)) in *.
  set (dz := Z.pos (digits2_pos (mx * my))) in *.
  assert (dx + dy - 1 <= dz) as Hdz.
  { destruct (Z.le_gt_cases (dx + dy - 1) dz); [done|].
    assert (2 ^ dz <= 2 ^ (dx - 1 + (dy - 1)))
      by (apply Z.pow_le_mono_r; lia).
    rewrite Z.pow_add_r in * by lia.
    rewrite Pos2Z.inj_mul in Hz2. nia. }
  unfold F64.mul, SFmul. simpl xorb.
  apply binary_round_aux_spec.
  - unfold bias. lia.
  - fold dz. rewrite fexp64_eq. lia.
  - simpl. rewrite Pos2Z.inj_mul. done.
Qed.

Lemma add_spec mx ex my ey :
  bounded F64.prec F64.emax mx ex = true ->
  bounded F64.prec F64.emax my ey = true ->
  rounds_to (val mx ex + val my ey)
    (F64.add (S754_finite false mx ex) (S754_finite false my ey)).
Proof.
  intros [Hcx Hex]%bounded_canonical [Hcy Hey]%bounded_canonical.
  rewrite fexp64_eq in Hcx, Hcy.
  unfold F64.add, SFadd, cond_Zopp.
  set (ez := Z.min ex ey).
  pose proof (shl_align_spec mx ex ez) as [Hx1 Hx2].
  pose proof (shl_align_spec my ey ez) as [Hy1 Hy2].
  rewrite Hx1 in Hx2. rewrite Hy1 in Hy2.
  replace (Z.min ex ez) with ez in * by lia.
  replace (Z.min ey ez) with ez in * by lia.
  set (ax := fst (shl_align mx ex ez)) in *.
  set (ay := fst (shl_align my ey ez)) in *.
  change (Z.pos ax + Z.pos ay) with (Z.pos (ax + ay)).
  unfold binary_normalize.
  assert (- bias <= ez) as Hb by (unfold bias; lia).
  replace (val mx ex + val my ey) with (val (ax + ay) ez).
  { by apply binary_round_spec. }
  unfold val. rewrite Pos2Z.inj_add, Hx2, Hy2.
  assert (grain ex = 2 ^ (ex - ez) * grain ez) as ->
    by (rewrite <- grain_add by lia; f_equal; lia).
  assert (grain ey = 2 ^ (ey - ez) * grain ez) as ->
    by (rewrite <- grain_add by lia; f_equal; lia).
  lia.
Qed.

(** ** Rounding to two decimal places *)

Lemma div_100_spec n :
  rounds_to (Z.pos n * 2 ^ bias)
    (F64.div (S754_finite false n 0) (S754_finite false 100 0)).
Proof.
  unfold F64.div, SFdiv, SFdiv_core_binary. simpl xorb.
  change (Zdigits2 (Z.pos 100)) with 7. simpl Zdigits2.
  pose proof (Zdigits2_bounds n) as [Hd1 Hd2].
  set (d1 := Z.pos (digits2_pos n)) in *.
  rewrite fexp64_eq.
  set (e' := Z.min (Z.max (d1 + 0 - (7 + 0) - 53) (-1074)) (0 - 0)).
  assert (He' : e' = Z.min (d1 - 60) 0) by lia.
  set (m' := match 0 - 0 - e' with
             | 0 => Z.pos n
             | Z.pos _ => Z.shiftl (Z.pos n) (0 - 0 - e')
             | Z.neg _ => 0
             end).
  assert (Hm' : m' = Z.pos n * 2 ^ (- e')).
  { unfold m'. replace (0 - 0 - e') with (- e') by lia.
    destruct (- e') as [|s|s] eqn:Hs; [simpl; lia| |lia].
    by rewrite Z.shiftl_mul_pow2. }
  assert (H59 : 2 ^ 59 <= m').
  { rewrite Hm'. destruct (Z.le_gt_cases d1 60).
    - replace (- e') with (60 - d1) by lia.
      assert (2 ^ 59 = 2 ^ (d1 - 1) * 2 ^ (60 - d1)) as ->.
      { rewrite <- Z.pow_add_r by lia. f_equal. lia. }
      assert (0 < 2 ^ (60 - d1)) by (apply Z.pow_pos_nonneg; lia). nia.
    - replace (- e') with 0 by lia.
      assert (2 ^ 59 <= 2 ^ (d1 - 1)) by (apply Z.pow_le_mono_r; lia).
      change (2 ^ 0) with 1. lia. }
  pose proof (Z_div_mod m' 100 ltac:(lia)) as Hdiv.
  destruct (Z.div_eucl m' 100) as [q r]. destruct Hdiv as [Hqr Hr].
  change (2 ^ 59) with 576460752303423488 in H59.
  destruct q as [|q|q]; [lia| |lia].
  assert (Hb : - bias <= e') by (unfold bias; lia).
  set (G := 2 ^ (e' + bias)).
  assert (HG : 0 < G) by (apply Z.pow_pos_nonneg; unfold bias; lia).
  assert (HX : Z.pos n * 2 ^ bias = m' * G).
  { rewrite Hm'. unfold G.
    replace bias with (- e' + (e' + bias)) at 1 by lia.
    rewrite Z.pow_add_r by (unfold bias; lia). lia. }
  assert (Hgr : grain e' = 100 * G) by done.
  apply binary_round_aux_spec; [done| |].
  - pose proof (Zdigits2_bounds q) as [Hq1 Hq2].
    assert (52 < Z.pos (digits2_pos q)).
    { destruct (Z.le_gt_cases (Z.pos (digits2_pos q)) 52); [|lia].
      assert (2 ^ Z.pos (digits2_pos q) <= 2 ^ 52)
        by (apply Z.pow_le_mono_r; lia).
      change (2 ^ 52) with 4503599627370496 in *. lia. }
    rewrite fexp64_eq. lia.
  - rewrite HX, Hqr. unfold new_location. change (Z.even 100) with true.
    unfold new_location_even, located. rewrite Hgr.
    destruct (Z.eqb_spec r 0) as [->|Hr0]; [lia|].
    destruct (Z.compare_spec (2 * r) 100); nia.
Qed.

Lemma scaled_nearest_spec m e :
  - bias <= e ->
  nearest (val m e) (2 ^ bias) (scaled_nearest m e 2).
Proof.
  intros He. unfold scaled_nearest, val, grain.
  change (10 ^ Z.of_N 2) with 100.
  assert (HS : 0 < 2 ^ bias) by done.
  destruct (Z.leb_spec 0 e) as [Hpos|Hneg].
  - rewrite Z.pow_add_r by (unfold bias; lia).
    assert (0 < 2 ^ e) by (apply Z.pow_pos_nonneg; lia).
    split; [nia|]. intros [?|?]; nia.
  - set (D := 2 ^ (- e)). set (G := 2 ^ (e + bias)).
    assert (HD : 0 < D) by (apply Z.pow_pos_nonneg; lia).
    assert (HG : 0 < G) by (apply Z.pow_pos_nonneg; lia).
    assert (HSD : 2 ^ bias = D * G).
    { unfold D, G. rewrite <- Z.pow_add_r by lia. f_equal. lia. }
    rewrite HSD. unfold div_half_even.
    pose proof (Z.div_mod (Z.pos m * 100) D ltac:(lia)) as Hqr.
    pose proof (Z.mod_pos_bound (Z.pos m * 100) D HD) as Hr.
    set (q := Z.pos m * 100 / D) in *.
    set (r := (Z.pos m * 100) mod D) in *.
    assert (HX : Z.pos m * (100 * G) = q * (D * G) + r * G) by nia.
    rewrite HX. unfold nearest.
    destruct (Z.compare_spec (2 * r) D) as [Heq|Hlt|Hgt].
    + destruct (Z.even q) eqn:Hev.
      * split; [nia|]. done.
      * split; [nia|]. intros _.
        by rewrite Z.add_1_r, Z.even_succ, <- Z.negb_even, Hev.
    + split; [nia|]. intros [?|?]; nia.
    + split; [nia|]. intros [?|?]; nia.
Qed.

(** ** Floats that are not negative *)

Lemma nonneg_leb_zero s y : nonneg y -> SFleb (S754_zero s) y = true.
Proof.
  destruct y as [sy|sy| |sy my ey]; simpl; intros H;
    first [done | by subst | by destruct H as [-> _]].
Qed.

Lemma nonneg_leb_inf x : nonneg x -> SFleb x (S754_infinity false) = true.
Proof.
  destruct x as [sx|sx| |sx mx ex]; simpl; intros H;
    first [done | by subst | by destruct H as [-> _]].
Qed.

Lemma nonneg_leb_refl x : nonneg x -> SFleb x x = true.
Proof.
  destruct x as [sx|sx| |sx mx ex]; simpl; intros H;
    first [done | by subst | idtac].
  destruct H as [-> _]. apply SFleb_finite_pos. right. split; [done|lia].
Qed.

Lemma canonical_of_bounds p fe :
  Z.pos p < 2 ^ 53 -> -1074 <= fe -> (-1074 < fe -> 2 ^ 52 <= Z.pos p) ->
  fexp64 (Z.pos (digits2_pos p) + fe) = fe.
Proof.
  intros Hlt Hfe Hnormal. rewrite fexp64_eq.
  pose proof (Zdigits2_bounds p) as [Hd1 Hd2].
  assert (Z.pos (digits2_pos p) <= 53) as Hd.
  { destruct (Z.le_gt_cases (Z.pos (digits2_pos p)) 53); [done|].
    assert (2 ^ 53 <= 2 ^ (Z.pos (digits2_pos p) - 1))
      by (apply Z.pow_le_mono_r; lia). lia. }
  destruct (Z.eq_dec fe (-1074)) as [->|Hne]; [lia|].
  rewrite (digits_unique p 53); [lia|].
  specialize (Hnormal ltac:(lia)). lia.
Qed.

Lemma rounds_to_nonneg X f : rounds_to X f -> nonneg f.
Proof.
  intros (d & n & Hd & HX & Hn & ->).
  pose proof (nearest_bounds _ _ _ Hd HX Hn) as [Hnb Hnn].
  assert (-1074 <= fexp64 d) as Hfe by (rewrite fexp64_eq; lia).
  set (fe := fexp64 d) in *. unfold encode.
  destruct (Z.eqb_spec n 0); [done|].
  destruct (Z.ltb_spec n (2 ^ 53)) as [Hlt|Hge].
  - destruct (Z.leb_spec fe 971) as [Hle|]; [|done].
    split; [done|]. unfold bounded, canonical_mantissa.
    destruct n as [|p|p]; [lia| |lia]. simpl Z.to_pos.
    rewrite canonical_of_bounds by done.
    apply andb_true_iff. split; [by apply Z.eqb_eq|by apply Z.leb_le].
  - destruct (Z.leb_spec (fe + 1) 971) as [Hle|]; [|done].
    split; [done|]. unfold bounded, canonical_mantissa.
    change (Z.pos (digits2_pos (Z.to_pos (2 ^ 52)))) with 53.
    rewrite fexp64_eq.
    apply andb_true_iff. split; [apply Z.eqb_eq; lia|by apply Z.leb_le].
Qed.

Lemma rounds_to_le X Y f g :
  rounds_to X f -> rounds_to Y g -> X <= Y -> le_nonneg f g.
Proof.
  intros Hf Hg HXY. split; [by eapply rounds_to_nonneg|].
  split; [by eapply rounds_to_nonneg|]. by eapply rounds_to_mono.
Qed.

Lemma grain_mul ex ey :
  - bias <= ex -> - bias <= ey -> - bias <= ex + ey ->
  grain (ex + ey) * grain 0 = grain ex * grain ey.
Proof.
  intros Hx Hy Hxy. unfold grain, bias in *.
  assert (2 ^ (ex + ey + 2200) * 2 ^ (0 + 2200)
          = 2 ^ (ex + 2200) * 2 ^ (ey + 2200)) as Hpow.
  { rewrite <- !Z.pow_add_r by lia. f_equal. lia. }
  nia.
Qed.

(** ** The operations are monotone *)

Lemma of_Z_mono k k' : 0 <= k <= k' -> le_nonneg (F64.of_Z k) (F64.of_Z k').
Proof.
  intros [Hk Hkk'].
  destruct k as [|p|p]; [| |lia]; (destruct k' as [|p'|p']; [| |lia]).
  - done.
  - pose proof (rounds_to_nonneg _ _ (of_Z_spec p')) as Hnn.
    split; [done|]. split; [done|]. by apply nonneg_leb_zero.
  - lia.
  - eapply rounds_to_le; [apply of_Z_spec..|].
    unfold val. pose proof (grain_pos 0 ltac:(done)). nia.
Qed.

Lemma mul_mono_l x x' y :
  le_nonneg x x' -> nonneg y -> F64.is_finite y = true ->
  (F64.is_finite x' = true \/ exists m e, y = S754_finite false m e) ->
  le_nonneg (F64.mul x y) (F64.mul x' y).
Proof.
  intros (Hx & Hx' & Hle) Hy Hfy Hdef.
  destruct y as [sy|sy| |sy my ey]; try done.
  - (* a zero factor *)
    destruct Hdef as [Hfx'|(m & e & ?)]; [|done].
    destruct x' as [sx'|sx'| |sx' mx' ex']; try done;
      destruct x as [sx|sx| |sx mx ex]; try done;
      simpl in Hx; try subst sx; by unfold le_nonneg, F64.mul.
  - (* a positive factor *)
    destruct Hy as [-> Hby].
    destruct x as [sx|sx| |sx mx ex]; try done.
    + assert (nonneg (F64.mul x' (S754_finite false my ey))) as Hnn.
      { destruct x' as [sx'|sx'| |sx' mx' ex']; try done.
        - simpl in Hx'. by subst.
        - destruct Hx' as [-> Hbx']. eapply rounds_to_nonneg.
          by apply mul_spec. }
      split; [done|]. split; [done|]. by apply nonneg_leb_zero.
    + simpl in Hx. subst sx.
      destruct x' as [sx'|sx'| |sx' mx' ex']; try done.
      simpl in Hx'. by subst sx'.
    + destruct Hx as [-> Hbx].
      destruct x' as [sx'|sx'| |sx' mx' ex']; try done.
      * simpl in Hx'. subst sx'.
        pose proof (rounds_to_nonneg _ _ (mul_spec _ _ _ _ Hbx Hby)) as Hnn.
        split; [done|]. split; [done|]. by apply nonneg_leb_inf.
      * destruct Hx' as [-> Hbx'].
        eapply rounds_to_le; [by apply mul_spec..|].
        pose proof (bounded_leb_val _ _ _ _ Hbx Hbx' Hle) as Hval.
        apply bounded_canonical in Hbx as [Hcx _].
        apply bounded_canonical in Hbx' as [Hcx' _].
        apply bounded_canonical in Hby as [Hcy _].
        rewrite fexp64_eq in Hcx, Hcx', Hcy. unfold val in Hval.
        pose proof (grain_mul ex ey) as Hg.
        pose proof (grain_mul ex' ey) as Hg'.
        unfold bias in Hg, Hg'.
        specialize (Hg ltac:(lia) ltac:(lia) ltac:(lia)).
        specialize (Hg' ltac:(lia) ltac:(lia) ltac:(lia)).
        pose proof (grain_pos 0 ltac:(done)) as H0.
        pose proof (grain_pos ey ltac:(unfold bias; lia)) as Hey.
        assert (Z.pos mx * Z.pos my * grain (ex + ey) * grain 0
                <= Z.pos mx' * Z.pos my * grain (ex' + ey) * grain 0).
        { rewrite <- !Z.mul_assoc, Hg, Hg'.
          assert (0 <= Z.pos my * grain ey) as Hnn by lia.
          pose proof (Z.mul_le_mono_nonneg_r _ _ _ Hnn Hval). lia. }
        apply Z.mul_le_mono_pos_r in H; done.
Qed.

Ltac nonneg_cases :=
  repeat match goal with
  | H : nonneg (S754_zero _) |- _ => clear H
  | H : nonneg (S754_infinity _) |- _ => simpl in H; subst
  | H : nonneg S754_nan |- _ => destruct H
  | H : nonneg (S754_finite _ _ _) |- _ => destruct H as [-> H]
  | H : F64.is_finite (S754_infinity _) = true |- _ => discriminate H
  | H : F64.is_finite S754_nan = true |- _ => discriminate H
  | H : F64.is_finite _ = true |- _ => clear H
  end.

Lemma add_nonneg b x :
  nonneg b -> F64.is_finite b = true -> nonneg x -> nonneg (F64.add b x).
Proof.
  intros Hb Hfb Hx.
  destruct b as [sb|sb| |sb mb eb]; nonneg_cases;
    destruct x as [sx|sx| |sx mx ex]; nonneg_cases.
  - by destruct sb, sx.
  - done.
  - done.
  - done.
  - done.
  - eapply rounds_to_nonneg. by apply add_spec.
Qed.

Lemma add_mono_r b x x' :
  nonneg b -> F64.is_finite b = true -> le_nonneg x x' ->
  le_nonneg (F64.add b x) (F64.add b x').
Proof.
  intros Hb Hfb (Hx & Hx' & Hle).
  pose proof (add_nonneg b x Hb Hfb Hx) as Hn.
  pose proof (add_nonneg b x' Hb Hfb Hx') as Hn'.
  split; [done|]. split; [done|].
  destruct b as [sb|sb| |sb mb eb]; nonneg_cases.
  - (* adding to a zero *)
    destruct x as [sx|sx| |sx mx ex]; nonneg_cases.
    + assert (exists s, F64.add (S754_zero sb) (S754_zero sx) = S754_zero s)
        as [s ->] by (destruct sb, sx; by eexists).
      by apply nonneg_leb_zero.
    + destruct x' as [sx'|sx'| |sx' mx' ex']; nonneg_cases; done.
    + destruct x' as [sx'|sx'| |sx' mx' ex']; nonneg_cases; done.
  - (* adding to a positive float *)
    destruct x as [sx|sx| |sx mx ex]; nonneg_cases.
    + destruct x' as [sx'|sx'| |sx' mx' ex']; nonneg_cases.
      * change (SFleb (S754_finite false mb eb) (S754_finite false mb eb)
                = true).
        by apply (nonneg_leb_refl (S754_finite false mb eb)).
      * done.
      * eapply rounds_to_mono;
          [by apply bounded_rounds_to|by apply add_spec|].
        unfold val. apply bounded_canonical in Hx' as [Hc _].
        rewrite fexp64_eq in Hc.
        pose proof (grain_pos ex' ltac:(unfold bias; lia)). nia.
    + destruct x' as [sx'|sx'| |sx' mx' ex']; nonneg_cases; done.
    + destruct x' as [sx'|sx'| |sx' mx' ex']; nonneg_cases.
      * done.
      * by apply nonneg_leb_inf.
      * eapply rounds_to_mono; [by apply add_spec..|].
        pose proof (bounded_leb_val _ _ _ _ Hx Hx' Hle). lia.
Qed.

Lemma scaled_nearest_cases m e :
  bounded F64.prec F64.emax m e = true ->
  nearest (val m e) (2 ^ bias) (scaled_nearest m e 2)
  /\ ((scaled_nearest m e 2 = 0
       /\ py_round (S754_finite false m e) 2 = S754_zero false)
      \/ exists n,
           scaled_nearest m e 2 = Z.pos n
           /\ py_round (S754_finite false m e) 2
              = F64.div (S754_finite false n 0) (S754_finite false 100 0)).
Proof.
  intros [Hc _]%bounded_canonical. rewrite fexp64_eq in Hc.
  assert (- bias <= e) as He by (unfold bias; lia).
  pose proof (scaled_nearest_spec m e He) as Hnear.
  split; [done|].
  destruct Hnear as [[_ Hup] _].
  pose proof (grain_pos e He). unfold val in Hup.
  assert (0 < 2 ^ bias) by done.
  unfold py_round. change (323 <? 2)%N with false. cbv iota.
  destruct (scaled_nearest m e 2) as [|n|n]; [by left| |nia].
  right. by exists n.
Qed.

Lemma py_round_nonneg x : nonneg x -> nonneg (py_round x 2).
Proof.
  destruct x as [sx|sx| |sx mx ex]; try done.
  intros [-> Hb].
  destruct (scaled_nearest_cases _ _ Hb) as [_ [[_ ->]|(n & _ & ->)]];
    [done|].
  eapply rounds_to_nonneg. apply div_100_spec.
Qed.

Lemma py_round_mono x x' :
  le_nonneg x x' -> le_nonneg (py_round x 2) (py_round x' 2).
Proof.
  intros (Hx & Hx' & Hle).
  pose proof (py_round_nonneg _ Hx) as Hn.
  pose proof (py_round_nonneg _ Hx') as Hn'.
  split; [done|]. split; [done|].
  destruct x as [sx|sx| |sx mx ex]; try done.
  - by apply nonneg_leb_zero.
  - simpl in Hx. subst sx.
    destruct x' as [sx'|sx'| |sx' mx' ex']; try done.
  - destruct Hx as [-> Hb].
    destruct x' as [sx'|sx'| |sx' mx' ex']; try done.
    + simpl in Hx'. subst sx'. by apply nonneg_leb_inf.
    + destruct Hx' as [-> Hb'].
      pose proof (bounded_leb_val _ _ _ _ Hb Hb' Hle) as Hval.
      destruct (scaled_nearest_cases _ _ Hb) as [Hnear Hcase].
      destruct (scaled_nearest_cases _ _ Hb') as [Hnear' Hcase'].
      assert (0 < 2 ^ bias) as Hstep by done.
      pose proof (nearest_mono _ _ _ _ _ Hstep Hval Hnear Hnear') as Hnn.
      destruct Hcase as [[_ ->]|(n & Hsn & ->)];
        [by apply nonneg_leb_zero|].
      destruct Hcase' as [[Hz _]|(n' & Hsn' & ->)]; [lia|].
      eapply rounds_to_mono; [apply div_100_spec..|].
      apply Z.mul_le_mono_nonneg_r; lia.
Qed.

(** ** The handlers *)

(** The float operations are never unfolded by simplification. *)
Arguments F64.add : simpl never.
Arguments F64.mul : simpl never.
Arguments F64.div : simpl never.
Arguments F64.of_Z : simpl never.
Arguments F64.decimal : simpl never.
Arguments py_round : simpl never.
Arguments pretty : simpl never.

Ltac unfold_result := unfold mbind, result_bind, mret, result_ret in *.

(** ** The float model on known values *)

(** [0.9] is [0x1.ccccccccccccdp-1] and [0.75] is exact. *)
Example decimal_0_9 :
  F64.decimal 9 1 = S754_finite false 8106479329266893 (-53)
  /\ F64.decimal 75 2 = S754_finite false 6755399441055744 (-53).
Proof. split; vm_compute; reflexivity. Qed.

(** [round(2.675, 2)] is [2.67], the float [2.675] lying below the decimal;
    [round(-0.001, 2)] is [-0.0]; [float(2**53 + 1)] is [2.0**53]. *)
Example py_round_known_values :
  py_round (F64.decimal 2675 3) 2 = F64.decimal 267 2
  /\ py_round (F64.decimal (-1) 3) 2 = S754_zero true
  /\ int_to_float (2 ^ 53 + 1) = Ok (F64.of_Z (2 ^ 53)).
Proof. repeat split; vm_compute; reflexivity. Qed.

(** ** The models on known values *)

(** A name is measured in characters, not in bytes: the accented letter
    and the emoji are one character each, of two and of four bytes, and a
    name of one such character is refused. *)
Example str_len_known_values :
  str_len "é" = 1%nat /\ String.length "é" = 2%nat
  /\ str_len "😀" = 1%nat /\ String.length "😀" = 4%nat
  /\ str_len "Zoé" = 3%nat
  /\ QuoteRequest_validate (fun s => Some s)
       {| in_customer_name := "é"; in_customer_email := "ada@example.org";
          in_service_key := "tshirt"; in_quantity := 100;
          in_colors := None; in_print_area := None;
          in_notes := None; in_estimated_total := None |}
     = Raise (RequestValidationError ["customer_name"]).
Proof. repeat split; vm_compute; reflexivity. Qed.

(** A stored service with a negative base price is found and then refused
    by the model. *)
Example invalid_document_is_refused :
  let doc := {| key := "mug"; name := "Mug Printing"; description := None;
                base_price := F64.of_Z (-1); categories := [];
                color_price_per_color := F64.decimal 2 1;
                print_area_multiplier := F64.of_Z 1;
                minimum_quantity := 0 |} in
  Service_valid doc = false
  /\ calculate_price
       (Some {| coll_service := [doc]; coll_quoterequest := [] |})
       {| service_key := "mug"; quantity := 10; colors := 1;
          print_area := "medium" |}
     = Raise (ValidationError ["base_price"; "minimum_quantity"]).
Proof. split; vm_compute; reflexivity. Qed.

(** ** The area multiplier *)

Lemma area_mult_lookup (service : Service) (a : string) :
  default (F64.of_Z 1) (area_multiplier_map service !! a)
  = Spec.area_multiplier service a.
Proof.
  unfold area_multiplier_map, Spec.area_multiplier.
  destruct (String.eqb_spec a "small") as [->|Hs].
  { by rewrite lookup_insert_eq. }
  rewrite lookup_insert_ne by congruence.
  destruct (String.eqb_spec a "medium") as [->|Hm].
  { by rewrite lookup_insert_eq. }
  rewrite lookup_insert_ne by congruence.
  destruct (String.eqb_spec a "large") as [->|Hl].
  { by rewrite lookup_singleton_eq. }
  by rewrite lookup_singleton_ne by congruence.
Qed.

(** ** The stored service is validated again *)

Lemma check_nil ok field : check ok field = [] <-> ok = true.
Proof. destruct ok; simpl; split; congruence. Qed.

Lemma Service_errors_nil doc :
  Service_errors doc = [] <-> Service_valid doc = true.
Proof.
  unfold Service_errors, Service_valid.
  rewrite !app_nil, !check_nil, !andb_true_iff. tauto.
Qed.

Lemma Service_validate_valid doc :
  Service_valid doc = true -> Service_validate doc = Ok doc.
Proof.
  intros Hvalid%Service_errors_nil. unfold Service_validate.
  by rewrite Hvalid.
Qed.

Lemma Service_validate_invalid doc :
  Service_valid doc = false ->
  Service_validate doc = Raise (ValidationError (Service_errors doc))
  /\ Service_errors doc <> [].
Proof.
  intros Hinvalid.
  assert (Service_errors doc <> []) as Hne.
  { intros Hnil%Service_errors_nil. congruence. }
  split; [|done]. unfold Service_validate.
  by destruct (Service_errors doc).
Qed.

Lemma calculate_price_invalid d req service :
  find_one_service d (service_key req) = Some service ->
  Service_valid service = false ->
  calculate_price (Some d) req
  = Raise (ValidationError (Service_errors service))
  /\ Service_errors service <> [].
Proof.
  intros Hfind Hinvalid.
  destruct (Service_validate_invalid _ Hinvalid) as [Hraise Hne].
  split; [|done]. unfold calculate_price. by rewrite Hfind, Hraise.
Qed.

Lemma calculate_price_Ok_valid d req service resp :
  find_one_service d (service_key req) = Some service ->
  calculate_price (Some d) req = Ok resp ->
  Service_valid service = true.
Proof.
  intros Hfind Hresp.
  destruct (Service_valid service) eqn:Hvalid; [done|].
  destruct (calculate_price_invalid _ _ _ Hfind Hvalid) as [Hraise _].
  congruence.
Qed.

Lemma calculate_price_found d req service :
  find_one_service d (service_key req) = Some service ->
  Service_valid service = true ->
  calculate_price (Some d) req =
    (unit_price ← pre_discount_unit_price service req;
     let unit_price := volume_discount (quantity req) unit_price in
     if quantity req <? minimum_quantity service then
       Raise (HTTPException 400
                ("Minimum quantity is " ++ pretty (minimum_quantity service)))
     else
       total ← float_mul_int unit_price (quantity req);
       mret {| unit_price := unit_price;
               total_price := py_round total 2;
               breakdown :=
                 {| base := base_price service;
                    bd_colors := colors req;
                    color_add_per_unit := color_price_per_color service;
                    area_multiplier :=
                      Spec.area_multiplier service (print_area req);
                    volume_discounts := true |} |}).
Proof.
  intros Hfind Hvalid. unfold calculate_price.
  rewrite Hfind, (Service_validate_valid _ Hvalid).
  cbn [mbind result_bind]. by rewrite area_mult_lookup.
Qed.

Lemma pre_discount_unit_price_spec service req :
  pre_discount_unit_price service req
  = Spec.unit_price_before_discount service (colors req) (print_area req).
Proof.
  unfold pre_discount_unit_price, Spec.unit_price_before_discount,
    Spec.color_add.
  by rewrite area_mult_lookup.
Qed.

(** C1. For a service found in the catalog, the unit price before the
    discount is [round((base_price + max(0, colors - 1) *
    color_price_per_color) * area_multiplier, 2)], the area multiplier being
    0.9 for "small", 1.0 for "medium", the service's own multiplier for
    "large" and 1.0 for any other value; the multiplier reported in the
    breakdown is that one. *)
Theorem pre_discount_unit_price_formula d req service :
  find_one_service d (service_key req) = Some service ->
  pre_discount_unit_price service req
  = Spec.unit_price_before_discount service (colors req) (print_area req)
  /\ (forall resp,
        calculate_price (Some d) req = Ok resp ->
        area_multiplier (breakdown resp)
        = Spec.area_multiplier service (print_area req)).
Proof.
  intros Hfind. split.
  - apply pre_discount_unit_price_spec.
  - intros resp Hresp.
    pose proof (calculate_price_Ok_valid _ _ _ _ Hfind Hresp) as Hvalid.
    revert Hresp. rewrite (calculate_price_found _ _ _ Hfind Hvalid).
    unfold_result.
    destruct (pre_discount_unit_price service req); [|done].
    destruct (quantity req <? minimum_quantity service); [done|].
    destruct (float_mul_int _ _); [|done].
    by intros [= <-].
Qed.

Lemma pre_discount_unit_price_formula_witness :
  find_one_service seeded "tshirt" = Some tshirt
  /\ pre_discount_unit_price tshirt
       {| service_key := "tshirt"; quantity := 100; colors := 3;
          print_area := "large" |}
     = Spec.unit_price_before_discount tshirt 3 "large".
Proof.
  split; [reflexivity|].
  apply (pre_discount_unit_price_formula seeded
           {| service_key := "tshirt"; quantity := 100; colors := 3;
              print_area := "large" |} tshirt).
  reflexivity.
Defined.

(** ** The volume discount *)

Lemma volume_discount_spec quantity unit_price :
  volume_discount quantity unit_price
  = Spec.unit_price_after_discount quantity unit_price.
Proof.
  unfold volume_discount, Spec.unit_price_after_discount,
    Spec.discount_factor.
  by repeat case_match.
Qed.

(** C2. The discount is a step function of the quantity with one branch
    applied, thresholds tried from the highest: from 100 the rounded unit
    price is multiplied by 0.75, from 50 by 0.82, from 20 by 0.90, below 20
    by nothing; the outcome is rounded to 2 places once more, and that is
    the unit price [calculate_price] returns. *)
Theorem volume_discount_step_function (n : Z) (p : float) :
  (100 <= n ->
   volume_discount n p
   = py_round (F64.mul p (F64.decimal 75 2)) 2)
  /\ (50 <= n < 100 ->
      volume_discount n p
      = py_round (F64.mul p (F64.decimal 82 2)) 2)
  /\ (20 <= n < 50 ->
      volume_discount n p
      = py_round (F64.mul p (F64.decimal 9 1)) 2)
  /\ (n < 20 ->
      volume_discount n p = py_round p 2)
  /\ (forall d req service resp,
        find_one_service d (service_key req) = Some service ->
        calculate_price (Some d) req = Ok resp ->
        exists before,
          pre_discount_unit_price service req = Ok before
          /\ Spec.unit_price_before_discount service (colors req)
               (print_area req) = Ok before
          /\ unit_price resp
             = Spec.unit_price_after_discount (quantity req) before).
Proof.
  unfold volume_discount.
  repeat split; intros.
  - by rewrite (proj2 (Z.leb_le 100 n)) by lia.
  - rewrite (proj2 (Z.leb_gt 100 n)) by lia.
    by rewrite (proj2 (Z.leb_le 50 n)) by lia.
  - rewrite (proj2 (Z.leb_gt 100 n)) by lia.
    rewrite (proj2 (Z.leb_gt 50 n)) by lia.
    by rewrite (proj2 (Z.leb_le 20 n)) by lia.
  - rewrite (proj2 (Z.leb_gt 100 n)) by lia.
    rewrite (proj2 (Z.leb_gt 50 n)) by lia.
    by rewrite (proj2 (Z.leb_gt 20 n)) by lia.
  - pose proof (calculate_price_Ok_valid _ _ _ _ H H0) as Hvalid.
    rewrite (calculate_price_found _ _ _ H Hvalid) in H0.
    rewrite <- pre_discount_unit_price_spec. unfold_result.
    destruct (pre_discount_unit_price service req) as [before|]; [|done].
    exists before. split; [done|]. split; [done|].
    destruct (quantity req <? minimum_quantity service); [done|].
    destruct (float_mul_int _ _); [|done].
    injection H0 as <-. simpl. apply volume_discount_spec.
Qed.

(** The second rounding is not folded into the first.  For the seeded
    T-shirt in 2 colors on a "small" area the price before rounding is
    [5.715]: rounded to [5.71] and discounted for 100 units it gives
    [4.28], where one rounding of [5.715 * 0.75] would give [4.29]. *)
Lemma rounding_points_are_independent :
  let before :=
    F64.mul (F64.add (F64.of_Z 6) (F64.decimal 35 2)) (F64.decimal 9 1) in
  volume_discount 100 (py_round before 2) = F64.decimal 428 2
  /\ py_round (F64.mul before (F64.decimal 75 2)) 2 = F64.decimal 429 2
  /\ exists resp,
       calculate_price (Some seeded)
         {| service_key := "tshirt"; quantity := 100; colors := 2;
            print_area := "small" |} = Ok resp
       /\ unit_price resp = F64.decimal 428 2.
Proof.
  intros before. split; [vm_compute; reflexivity|].
  split; [vm_compute; reflexivity|].
  eexists. split; vm_compute; reflexivity.
Qed.

Lemma volume_discount_step_function_witness :
  100 <= 250
  /\ volume_discount 250 (F64.decimal 67 1)
     = py_round (F64.mul (F64.decimal 67 1) (F64.decimal 75 2)) 2.
Proof.
  split; [lia|].
  apply (volume_discount_step_function 250 (F64.decimal 67 1)). lia.
Defined.

(** ** The total *)

(** C3. For a service of the catalog and a quantity that reaches its
    minimum, the total that [calculate_price] returns is
    [round(unit_price * quantity, 2)] for the unit price it returns; and
    for a stored service that meets the constraints of the model it does
    return whenever the two integers that meet a float, the extra colors
    and the quantity, convert to float. *)
Theorem total_price_is_rounded_product d req service :
  find_one_service d (service_key req) = Some service ->
  minimum_quantity service <= quantity req ->
  (forall resp,
     calculate_price (Some d) req = Ok resp ->
     exists t,
       float_mul_int (unit_price resp) (quantity req) = Ok t
       /\ total_price resp = py_round t 2)
  /\ (Service_valid service = true ->
      forall c n,
        int_to_float (Z.max 0 (colors req - 1)) = Ok c ->
        int_to_float (quantity req) = Ok n ->
        exists resp,
          calculate_price (Some d) req = Ok resp
          /\ total_price resp = py_round (F64.mul (unit_price resp) n) 2).
Proof.
  intros Hfind Hmin. split.
  - intros resp Hresp.
    pose proof (calculate_price_Ok_valid _ _ _ _ Hfind Hresp) as Hvalid.
    revert Hresp. rewrite (calculate_price_found _ _ _ Hfind Hvalid).
    rewrite (proj2 (Z.ltb_ge _ _)) by done.
    unfold pre_discount_unit_price, int_mul_float, float_mul_int.
    unfold_result.
    destruct (int_to_float (Z.max 0 (colors req - 1))); [|done].
    destruct (int_to_float (quantity req)) as [n|]; [|done].
    intros [= <-]. simpl. by eexists.
  - intros Hvalid c n Hc Hn.
    rewrite (calculate_price_found _ _ _ Hfind Hvalid).
    rewrite (proj2 (Z.ltb_ge _ _)) by done.
    unfold pre_discount_unit_price, int_mul_float, float_mul_int.
    rewrite Hc, Hn. unfold_result. by eexists.
Qed.

Lemma total_price_is_rounded_product_witness :
  find_one_service seeded "tshirt" = Some tshirt
  /\ minimum_quantity tshirt <= 100
  /\ Service_valid tshirt = true
  /\ exists resp,
       calculate_price (Some seeded)
         {| service_key := "tshirt"; quantity := 100; colors := 3;
            print_area := "medium" |} = Ok resp
       /\ total_price resp = py_round (F64.mul (unit_price resp) (F64.of_Z 100)) 2.
Proof.
  assert (Hvalid : Service_valid tshirt = true) by (vm_compute; reflexivity).
  split; [reflexivity|]. split; [by vm_compute|]. split; [exact Hvalid|].
  apply (proj2 (total_price_is_rounded_product seeded
           {| service_key := "tshirt"; quantity := 100; colors := 3;
              print_area := "medium" |} tshirt eq_refl
           ltac:(by vm_compute)) Hvalid (F64.of_Z 2) (F64.of_Z 100));
    by vm_compute.
Defined.

(** ** Colors at or below one *)

Lemma int_to_float_zero : int_to_float 0 = Ok (F64.of_Z 0).
Proof. vm_compute. reflexivity. Qed.

(** C10. [/price] puts no bound on [colors]: a body with a value at or
    below 1 is accepted by [PriceRequest] as it is, and priced as 1 is.
    The request fails exactly when the same request with one color fails,
    with the same error, and otherwise the unit price, the total and the
    prices of the breakdown are those of the one-color request.  It does
    not fail where a price is due: for a stored service that meets the
    constraints of the model and a quantity that reaches the minimum and
    converts to float, both requests are priced, the color add-on being
    [0 * color_price_per_color], and the breakdown reports the colors as
    they were sent. *)
Theorem colors_below_one_priced_as_one db body c :
  p_colors body = Some c ->
  c <= 1 ->
  let one := body_with_colors body (Some 1) in
  (exists req, PriceRequest_validate body = Ok req /\ colors req = c)
  /\ match post_price db body, post_price db one with
     | Ok r, Ok r1 =>
         unit_price r = unit_price r1
         /\ total_price r = total_price r1
         /\ base (breakdown r) = base (breakdown r1)
         /\ color_add_per_unit (breakdown r)
            = color_add_per_unit (breakdown r1)
         /\ area_multiplier (breakdown r) = area_multiplier (breakdown r1)
     | Raise e, Raise e1 => e = e1
     | _, _ => False
     end
  /\ (forall d service n,
        db = Some d ->
        find_one_service d (p_service_key body) = Some service ->
        Service_valid service = true ->
        minimum_quantity service <= p_quantity body ->
        int_to_float (p_quantity body) = Ok n ->
        let color_add := F64.mul (F64.of_Z 0) (color_price_per_color service) in
        let before :=
          py_round
            (F64.mul (F64.add (base_price service) color_add)
               (Spec.area_multiplier service
                  (default "medium" (p_print_area body)))) 2 in
        let unit := volume_discount (p_quantity body) before in
        int_mul_float (Z.max 0 (c - 1)) (color_price_per_color service)
        = Ok color_add
        /\ exists r r1,
             post_price db body = Ok r
             /\ post_price db one = Ok r1
             /\ bd_colors (breakdown r) = c
             /\ unit_price r = unit
             /\ unit_price r1 = unit
             /\ total_price r = py_round (F64.mul unit n) 2
             /\ total_price r1 = py_round (F64.mul unit n) 2).
Proof.
  intros Hbody Hc one.
  unfold post_price, PriceRequest_validate. unfold_result.
  unfold one. cbn [body_with_colors p_service_key p_quantity p_colors
                   p_print_area].
  rewrite Hbody. cbn [default from_option Datatypes.id].
  assert (Hzero : Z.max 0 (c - 1) = 0) by lia.
  split; [by eexists|]. split.
  - destruct db as [d|]; [|reflexivity].
    unfold calculate_price, pre_discount_unit_price.
    cbn [service_key quantity colors print_area].
    destruct (find_one_service d (p_service_key body)) as [service|]; [|done].
    unfold_result.
    destruct (Service_validate service) as [valid|]; [|done].
    rewrite Hzero. change (Z.max 0 (1 - 1)) with 0.
    destruct (int_mul_float _ _); [|done].
    destruct (p_quantity body <? minimum_quantity valid); [done|].
    by destruct (float_mul_int _ _).
  - intros d service n -> Hfind Hvalid Hmin Hn.
    assert (Hadd : int_mul_float 0 (color_price_per_color service)
                   = Ok (F64.mul (F64.of_Z 0)
                           (color_price_per_color service))).
    { unfold int_mul_float. by rewrite int_to_float_zero. }
    rewrite Hzero. split; [exact Hadd|].
    rewrite !calculate_price_found with (service := service) by done.
    unfold pre_discount_unit_price, float_mul_int.
    cbn [service_key quantity colors print_area].
    rewrite Hzero. change (Z.max 0 (1 - 1)) with 0.
    rewrite Hadd, Hn. unfold_result.
    rewrite (proj2 (Z.ltb_ge _ _)) by done.
    rewrite area_mult_lookup.
    eexists _, _. split; [reflexivity|]. split; [reflexivity|].
    cbn [breakdown bd_colors unit_price total_price]. done.
Qed.

Lemma colors_below_one_priced_as_one_witness :
  let body := {| p_service_key := "tshirt"; p_quantity := 30;
                 p_colors := Some (-4); p_print_area := Some "small" |} in
  let one := body_with_colors body (Some 1) in
  p_colors body = Some (-4)
  /\ -4 <= 1
  /\ find_one_service seeded (p_service_key body) = Some tshirt
  /\ Service_valid tshirt = true
  /\ minimum_quantity tshirt <= p_quantity body
  /\ int_to_float (p_quantity body) = Ok (F64.of_Z 30)
  /\ exists r r1,
       post_price (Some seeded) body = Ok r
       /\ post_price (Some seeded) one = Ok r1
       /\ bd_colors (breakdown r) = -4
       /\ unit_price r = F64.decimal 486 2
       /\ unit_price r1 = F64.decimal 486 2
       /\ total_price r = F64.decimal 1458 1
       /\ total_price r1 = F64.decimal 1458 1.
Proof.
  intros body one.
  assert (Hbody : p_colors body = Some (-4)) by reflexivity.
  assert (Hc : -4 <= 1) by lia.
  assert (Hfind : find_one_service seeded (p_service_key body) = Some tshirt)
    by reflexivity.
  assert (Hvalid : Service_valid tshirt = true) by (vm_compute; reflexivity).
  assert (Hmin : minimum_quantity tshirt <= p_quantity body)
    by (vm_compute; discriminate).
  assert (Hn : int_to_float (p_quantity body) = Ok (F64.of_Z 30))
    by (vm_compute; reflexivity).
  split; [exact Hbody|]. split; [exact Hc|]. split; [exact Hfind|].
  split; [exact Hvalid|]. split; [exact Hmin|]. split; [exact Hn|].
  destruct (proj2 (proj2 (colors_below_one_priced_as_one (Some seeded)
                            body (-4) Hbody Hc))
              seeded tshirt (F64.of_Z 30) eq_refl Hfind Hvalid Hmin Hn)
    as (_ & r & r1 & Hr & Hr1 & Hcol & Hu & Hu1 & Ht & Ht1).
  exists r, r1.
  split; [exact Hr|]. split; [exact Hr1|]. split; [exact Hcol|].
  split; [rewrite Hu; vm_compute; reflexivity|].
  split; [rewrite Hu1; vm_compute; reflexivity|].
  split; [rewrite Ht; vm_compute; reflexivity|].
  rewrite Ht1; vm_compute; reflexivity.
Defined.

(** ** Outcomes of [calculate_price] *)

Lemma int_to_float_cases z :
  (exists x, int_to_float z = Ok x) \/ int_to_float z = Raise overflow.
Proof.
  unfold int_to_float, overflow.
  destruct (F64.of_Z z); eauto.
Qed.

(** C4 as worded fails on an integer too large for a float:
    the service exists and meets the constraints of its model, the
    quantity reaches the minimum, yet no price comes back; and with the
    quantity below the minimum the error is the overflow, not the bad
    request. *)
Lemma calculate_price_overflow_counterexample :
  let req := {| service_key := "tshirt"; quantity := 1;
                colors := 2 ^ 1024 + 1; print_area := "medium" |} in
  let low := {| service_key := "tshirt"; quantity := 0;
                colors := 2 ^ 1024 + 1; print_area := "medium" |} in
  find_one_service seeded (service_key req) = Some tshirt
  /\ Service_valid tshirt = true
  /\ ~ quantity req < minimum_quantity tshirt
  /\ calculate_price (Some seeded) req = Raise overflow
  /\ ~ (exists resp, calculate_price (Some seeded) req = Ok resp)
  /\ quantity low < minimum_quantity tshirt
  /\ calculate_price (Some seeded) low = Raise overflow.
Proof.
  intros req low.
  assert (Hreq : calculate_price (Some seeded) req = Raise overflow)
    by (vm_compute; reflexivity).
  split; [reflexivity|].
  split; [vm_compute; reflexivity|].
  split; [vm_compute; discriminate|].
  split; [exact Hreq|].
  split; [intros [resp Hresp]; congruence|].
  split; vm_compute; reflexivity.
Qed.

(** C4, amended.  With the store configured, [calculate_price] answers
    "not found" exactly when the key is not in the catalog.  When the
    service exists, it fails with pydantic's [ValidationError] exactly when
    the stored document does not meet the constraints of [Service].  When
    the document meets them and [max(0, colors - 1)] converts to float, it
    answers "bad request" exactly when the quantity is below the service's
    minimum, and returns a price when the quantity reaches the minimum and
    converts to float.  An integer too large for a float raises
    [OverflowError] instead: the extra colors whatever the quantity, the
    quantity once it has passed the minimum check. *)
Theorem calculate_price_outcomes d req :
  (find_one_service d (service_key req) = None <->
   calculate_price (Some d) req
   = Raise (HTTPException 404 "Service not found"))
  /\ (forall service,
        find_one_service d (service_key req) = Some service ->
        let bad_request :=
          HTTPException 400
            ("Minimum quantity is " ++ pretty (minimum_quantity service)) in
        (Service_valid service = false <->
         exists loc,
           calculate_price (Some d) req = Raise (ValidationError loc))
        /\ (Service_valid service = true ->
            (int_to_float (Z.max 0 (colors req - 1)) = Raise overflow ->
             calculate_price (Some d) req = Raise overflow)
            /\ (forall c,
                  int_to_float (Z.max 0 (colors req - 1)) = Ok c ->
                  (quantity req < minimum_quantity service <->
                   calculate_price (Some d) req = Raise bad_request)
                  /\ (minimum_quantity service <= quantity req ->
                      (forall n, int_to_float (quantity req) = Ok n ->
                         exists resp, calculate_price (Some d) req = Ok resp)
                      /\ (int_to_float (quantity req) = Raise overflow ->
                          calculate_price (Some d) req = Raise overflow))))).
Proof.
  split.
  - split.
    + intros Hnone. unfold calculate_price. by rewrite Hnone.
    + destruct (find_one_service d (service_key req)) as [service|] eqn:Hfind;
        [|done].
      destruct (Service_valid service) eqn:Hvalid.
      * rewrite (calculate_price_found _ _ _ Hfind Hvalid).
        unfold pre_discount_unit_price, int_mul_float, float_mul_int.
        unfold_result.
        destruct (int_to_float_cases (Z.max 0 (colors req - 1)))
          as [[c ->]| ->]; [|done].
        destruct (quantity req <? minimum_quantity service); [done|].
        by destruct (int_to_float_cases (quantity req)) as [[n ->]| ->].
      * destruct (calculate_price_invalid _ _ _ Hfind Hvalid) as [-> _].
        done.
  - intros service Hfind bad_request. split.
    + split.
      * intros Hinvalid.
        destruct (calculate_price_invalid _ _ _ Hfind Hinvalid) as [-> _].
        by eexists.
      * intros [loc Hraise].
        destruct (Service_valid service) eqn:Hvalid; [|done]. exfalso.
        revert Hraise. rewrite (calculate_price_found _ _ _ Hfind Hvalid).
        unfold pre_discount_unit_price, int_mul_float, float_mul_int.
        unfold_result.
        destruct (int_to_float_cases (Z.max 0 (colors req - 1)))
          as [[c ->]| ->]; [|done].
        destruct (quantity req <? minimum_quantity service); [done|].
        by destruct (int_to_float_cases (quantity req)) as [[n ->]| ->].
    + intros Hvalid.
      rewrite (calculate_price_found _ _ _ Hfind Hvalid).
      unfold pre_discount_unit_price, int_mul_float, float_mul_int.
      unfold_result. split.
      * by intros ->.
      * intros c ->.
        destruct (Z.ltb_spec (quantity req) (minimum_quantity service)).
        -- split; [done|lia].
        -- split.
           ++ split; [lia|].
              by destruct (int_to_float_cases (quantity req))
                as [[n ->]| ->].
           ++ intros _. split.
              ** intros n ->. by eexists.
              ** by intros ->.
Qed.

Lemma calculate_price_outcomes_witness :
  let req := {| service_key := "tshirt"; quantity := 0; colors := 2;
                print_area := "large" |} in
  find_one_service seeded (service_key req) = Some tshirt
  /\ Service_valid tshirt = true
  /\ int_to_float (Z.max 0 (colors req - 1)) = Ok (F64.of_Z 1)
  /\ (quantity req < minimum_quantity tshirt <->
      calculate_price (Some seeded) req
      = Raise (HTTPException 400
                 ("Minimum quantity is " ++ pretty (minimum_quantity tshirt)))).
Proof.
  intros req.
  assert (Hvalid : Service_valid tshirt = true) by (vm_compute; reflexivity).
  assert (Hc : int_to_float (Z.max 0 (colors req - 1)) = Ok (F64.of_Z 1))
    by (vm_compute; reflexivity).
  split; [reflexivity|]. split; [exact Hvalid|]. split; [exact Hc|].
  exact (proj1 (proj2 (proj2 (proj2 (calculate_price_outcomes seeded req)
                                tshirt eq_refl) Hvalid)
                 (F64.of_Z 1) Hc)).
Defined.

(** ** Quote creation *)




(** C8. When [create_quote] succeeds, the total it returns and the one it
    stores with the quote are the total [calculate_price] computed for the
    request; a value the caller put in [estimated_total] changes neither. *)
Theorem create_quote_estimated_total generate_id d q res db' :
  create_quote generate_id (Some d) q = (Ok res, db') ->
  exists price,
    calculate_price (Some d) (PriceRequest_of_quote q) = Ok price
    /\ r_estimated_total res = total_price price
    /\ (exists d',
          db' = Some d'
          /\ coll_quoterequest d'
             = (coll_quoterequest d
                ++ [(id res,
                     set_estimated_total q (Some (total_price price)))])%list
          /\ forall doc_id doc,
               last (coll_quoterequest d') = Some (doc_id, doc) ->
               estimated_total doc = Some (total_price price))
    /\ (forall t,
          create_quote generate_id (Some d) (set_estimated_total q t)
          = (Ok res, db')).
Proof.
  unfold create_quote.
  change (PriceRequest_of_quote (set_estimated_total q ?t))
    with (PriceRequest_of_quote q).
  destruct (calculate_price (Some d) (PriceRequest_of_quote q))
    as [price|]; [|done].
  unfold create_document_quoterequest. intros [= <- <-].
  exists price. repeat split.
  eexists. split; [done|]. split; [done|].
  simpl. intros doc_id doc. rewrite last_snoc. by intros [= <- <-].
Qed.

Lemma create_quote_estimated_total_witness :
  let q := {| customer_name := "Ada"; customer_email := "ada@example.org";
              q_service_key := "tshirt"; q_quantity := 100; q_colors := 3;
              q_print_area := "medium"; notes := None;
              estimated_total := Some (F64.of_Z 1) |} in
  let stored := set_estimated_total q (Some (F64.of_Z 503)) in
  let after := {| coll_service := [tshirt];
                  coll_quoterequest := [("id", stored)] |} in
  create_quote (fun _ => "id") (Some seeded) q
  = (Ok {| id := "id"; r_estimated_total := F64.of_Z 503 |}, Some after)
  /\ exists price,
       calculate_price (Some seeded) (PriceRequest_of_quote q) = Ok price
       /\ F64.of_Z 503 = total_price price.
Proof.
  intros q stored after.
  assert (Hrun : create_quote (fun _ => "id") (Some seeded) q
                 = (Ok {| id := "id"; r_estimated_total := F64.of_Z 503 |},
                    Some after)) by (vm_compute; reflexivity).
  split; [exact Hrun|].
  destruct (create_quote_estimated_total _ _ _ _ _ Hrun)
    as (price & Hprice & Htotal & _).
  exists price. split; [exact Hprice|exact Htotal].
Defined.

(** ** Validation of a quote request *)

Lemma print_area_literal_spec a :
  print_area_literal a = true <-> In a ["small"; "medium"; "large"].
Proof.
  unfold print_area_literal. simpl.
  destruct (String.eqb_spec a "small"), (String.eqb_spec a "medium"),
    (String.eqb_spec a "large"); simpl; split; intros; try done; try tauto;
    intuition congruence.
Qed.

Lemma In_check f ok g : In f (check ok g) <-> ok = false /\ g = f.
Proof. destruct ok; simpl; intuition congruence. Qed.

Lemma validation_errors validate_email body :
  let b1 := 2 <=? Z.of_nat (str_len (in_customer_name body)) in
  let b2 := bool_decide (is_Some (validate_email (in_customer_email body))) in
  let b3 := (1 <=? in_quantity body) && (in_quantity body <=? 100000) in
  let b4 := (1 <=? default 1 (in_colors body))
            && (default 1 (in_colors body) <=? 10) in
  let b5 := print_area_literal (default "medium" (in_print_area body)) in
  let b6 := match in_estimated_total body with
            | Some t => F64.leb (F64.of_Z 0) t
            | None => true
            end in
  exists errors : list string,
    (In "customer_name" errors <-> b1 = false)
    /\ (In "customer_email" errors <-> b2 = false)
    /\ (In "quantity" errors <-> b3 = false)
    /\ (In "colors" errors <-> b4 = false)
    /\ (In "print_area" errors <-> b5 = false)
    /\ (In "estimated_total" errors <-> b6 = false)
    /\ (errors = [] <->
        b1 = true /\ b2 = true /\ b3 = true /\ b4 = true /\ b5 = true
        /\ b6 = true)
    /\ QuoteRequest_validate validate_email body
       = match errors with
         | [] =>
             Ok {| customer_name := in_customer_name body;
                   customer_email :=
                     default (in_customer_email body)
                             (validate_email (in_customer_email body));
                   q_service_key := in_service_key body;
                   q_quantity := in_quantity body;
                   q_colors := default 1 (in_colors body);
                   q_print_area := default "medium" (in_print_area body);
                   notes := in_notes body;
                   estimated_total := in_estimated_total body |}
         | _ => Raise (RequestValidationError errors)
         end.
Proof.
  intros b1 b2 b3 b4 b5 b6.
  exists (check b1 "customer_name" ++ check b2 "customer_email"
          ++ check b3 "quantity" ++ check b4 "colors"
          ++ check b5 "print_area" ++ check b6 "estimated_total")%list.
  rewrite !in_app_iff, !In_check.
  do 6 (split; [intuition (try discriminate)|]).
  split; [|reflexivity].
  clearbody b1 b2 b3 b4 b5 b6.
  destruct b1, b2, b3, b4, b5, b6; simpl; intuition discriminate.
Qed.

(** C9. [/quotes] validates the body before the handler runs.  A body that
    is not well formed (name of at least 2 characters, syntactically valid
    email, quantity in [1, 100000], colors in [1, 10], print area among
    small, medium and large) is answered with a validation error that
    names at least one field, and the store is not touched; a body that is
    accepted is well formed, and the handler runs on the validated
    request.  Nothing else is asked of a body but that an
    [estimated_total] it sends is not below zero: with that, a well-formed
    body is accepted.  The characters of the name are counted as such, not
    as bytes. *)
Theorem post_quotes_validation validate_email generate_id db body :
  (~ well_formed validate_email body ->
   exists loc,
     loc <> []
     /\ post_quotes validate_email generate_id db body
        = (Raise (RequestValidationError loc), db))
  /\ (forall q,
        QuoteRequest_validate validate_email body = Ok q ->
        well_formed validate_email body
        /\ q_quantity q = in_quantity body
        /\ q_colors q = default 1 (in_colors body)
        /\ q_print_area q = default "medium" (in_print_area body)
        /\ post_quotes validate_email generate_id db body
           = create_quote generate_id db q)
  /\ (well_formed validate_email body ->
      estimated_total_ok body ->
      exists q,
        QuoteRequest_validate validate_email body = Ok q
        /\ post_quotes validate_email generate_id db body
           = create_quote generate_id db q).
Proof.
  assert (Hconv : well_formed validate_email body ->
                  estimated_total_ok body ->
                  exists q,
                    QuoteRequest_validate validate_email body = Ok q
                    /\ post_quotes validate_email generate_id db body
                       = create_quote generate_id db q).
  { intros (H1 & H2 & H3 & H4 & H5) Hest.
    destruct (validation_errors validate_email body)
      as (errors & _ & _ & _ & _ & _ & _ & Hnil & Heq).
    cbv zeta in Hnil.
    assert (errors = []) as Herr.
    { apply Hnil.
      split; [by apply Z.leb_le|]. split; [by apply bool_decide_eq_true|].
      split; [rewrite andb_true_iff, !Z.leb_le; lia|].
      split; [rewrite andb_true_iff, !Z.leb_le; lia|].
      split; [by apply print_area_literal_spec|].
      unfold estimated_total_ok in Hest.
      by destruct (in_estimated_total body). }
    rewrite Herr in Heq.
    eexists. split; [exact Heq|]. unfold post_quotes. by rewrite Heq. }
  unfold post_quotes, QuoteRequest_validate, well_formed.
  set (errors := (check _ "customer_name" ++ _)%list).
  assert (Hnil : errors = [] -> well_formed validate_email body).
  { unfold errors, well_formed. intros Herr.
    repeat (apply app_eq_nil in Herr as [?%check_nil Herr]).
    repeat match goal with
           | H : (_ && _) = true |- _ => apply andb_true_iff in H as [? ?]
           | H : bool_decide _ = true |- _ => apply bool_decide_eq_true in H
           | H : (_ <=? _) = true |- _ => apply Z.leb_le in H
           | H : print_area_literal _ = true |- _ =>
               apply print_area_literal_spec in H
           end.
    tauto. }
  split; [|split].
  - intros Hbad. destruct errors as [|field rest] eqn:Herr.
    + by destruct Hbad; apply Hnil.
    + exists (field :: rest). by split.
  - intros q. destruct errors as [|field rest] eqn:Herr; [|done].
    intros [= <-]. simpl. split; [by apply Hnil|done].
  - exact Hconv.
Qed.

Lemma post_quotes_validation_witness :
  let validate_email := fun s : string =>
    if String.eqb s "ada@example.org" then Some s else None in
  let body := {| in_customer_name := "é";
                 in_customer_email := "ada@example.org";
                 in_service_key := "tshirt"; in_quantity := 100;
                 in_colors := Some 3; in_print_area := Some "large";
                 in_notes := None; in_estimated_total := None |} in
  ~ well_formed validate_email body
  /\ exists loc,
       loc <> []
       /\ post_quotes validate_email (fun _ => "id") (Some seeded) body
          = (Raise (RequestValidationError loc), Some seeded).
Proof.
  intros validate_email body.
  assert (Hbad : ~ well_formed validate_email body).
  { intros (Hname & _). vm_compute in Hname. by apply Hname. }
  split; [exact Hbad|].
  apply (proj1 (post_quotes_validation validate_email (fun _ => "id")
                  (Some seeded) body) Hbad).
Defined.

(** ** The worked example *)

(** C6. For a service with base price 6.0, 0.35 per extra color, area
    multiplier 1.0 and a minimum quantity from 1 to 100, the request of 100
    units in 3 colors on a "medium" area
    gives [color_add = 0.7] and 6.7 before the discount.  The float product
    [6.7 * 0.75] is the binary64 number just above 5.025, so it rounds to
    5.03 and not to 5.02; the total is 503.0.  [round] itself breaks an
    exact tie towards the even digit: 0.125 gives 0.12 and 0.375 gives
    0.38. *)
Theorem worked_example_rounds_to_5_03 d req service :
  find_one_service d (service_key req) = Some service ->
  base_price service = F64.of_Z 6 ->
  color_price_per_color service = F64.decimal 35 2 ->
  print_area_multiplier service = F64.of_Z 1 ->
  1 <= minimum_quantity service <= 100 ->
  quantity req = 100 ->
  colors req = 3 ->
  print_area req = "medium" ->
  Spec.color_add service (colors req) = Ok (F64.decimal 7 1)
  /\ pre_discount_unit_price service req = Ok (F64.decimal 67 1)
  /\ F64.mul (F64.decimal 67 1) (F64.decimal 75 2)
     = S754_finite false 5657647031884186 (-50)
  /\ 5025 * 2 ^ 50 < 5657647031884186 * 1000
  /\ (exists resp,
        calculate_price (Some d) req = Ok resp
        /\ unit_price resp = F64.decimal 503 2
        /\ total_price resp = F64.of_Z 503)
  /\ F64.decimal 503 2 <> F64.decimal 502 2
  /\ py_round (F64.decimal 125 3) 2 = F64.decimal 12 2
  /\ py_round (F64.decimal 375 3) 2 = F64.decimal 38 2.
Proof.
  intros Hfind Hbase Hcolor Harea Hmin Hq Hc Hpa.
  assert (Hadd : Spec.color_add service (colors req) = Ok (F64.decimal 7 1)).
  { unfold Spec.color_add. rewrite Hcolor, Hc. by vm_compute. }
  assert (Hpre : pre_discount_unit_price service req = Ok (F64.decimal 67 1)).
  { rewrite pre_discount_unit_price_spec.
    unfold Spec.unit_price_before_discount. rewrite Hadd.
    unfold Spec.area_multiplier. rewrite Hpa, Hbase. by vm_compute. }
  split; [exact Hadd|]. split; [exact Hpre|].
  split; [by vm_compute|]. split; [by vm_compute|].
  assert (Hvalid : Service_valid service = true).
  { unfold Service_valid. rewrite Hbase, Hcolor, Harea.
    rewrite (proj2 (Z.leb_le 1 _)) by lia. by vm_compute. }
  split.
  - rewrite (calculate_price_found _ _ _ Hfind Hvalid), Hpre, Hq.
    rewrite (proj2 (Z.ltb_ge _ _)) by lia.
    unfold_result. eexists. split; [by vm_compute|].
    split; by vm_compute.
  - split; [by vm_compute|]. split; by vm_compute.
Qed.

Lemma worked_example_rounds_to_5_03_witness :
  let req := {| service_key := "tshirt"; quantity := 100; colors := 3;
                print_area := "medium" |} in
  find_one_service seeded (service_key req) = Some tshirt
  /\ 1 <= minimum_quantity tshirt <= 100
  /\ exists resp,
       calculate_price (Some seeded) req = Ok resp
       /\ unit_price resp = F64.decimal 503 2
       /\ total_price resp = F64.of_Z 503.
Proof.
  intros req.
  assert (Hmin : 1 <= minimum_quantity tshirt <= 100)
    by (change (minimum_quantity tshirt) with 1; lia).
  split; [reflexivity|]. split; [exact Hmin|].
  apply (worked_example_rounds_to_5_03 seeded req tshirt);
    try reflexivity.
  exact Hmin.
Defined.

(** ** More colors never lower the price before the discount *)

Lemma valid_nonneg x :
  F64.leb (F64.of_Z 0) x = true -> F64.is_finite x = true ->
  F64.valid x = true -> nonneg x.
Proof.
  destruct x as [sx|sx| |sx mx ex]; try done.
  intros Hle _ Hvalid. split; [|done]. by destruct sx.
Qed.

Lemma valid_positive m0 e0 x :
  F64.leb (S754_finite false m0 e0) x = true -> F64.is_finite x = true ->
  F64.valid x = true ->
  exists m e,
    x = S754_finite false m e /\ bounded F64.prec F64.emax m e = true.
Proof.
  destruct x as [sx|sx| |sx mx ex]; try done.
  intros Hle _ Hvalid. destruct sx; [done|]. by exists mx, ex.
Qed.

Lemma Service_fields_nonneg service :
  Service_valid service = true -> Service_finite service = true ->
  nonneg (base_price service)
  /\ F64.is_finite (base_price service) = true
  /\ nonneg (color_price_per_color service)
  /\ F64.is_finite (color_price_per_color service) = true
  /\ exists m e,
       print_area_multiplier service = S754_finite false m e
       /\ bounded F64.prec F64.emax m e = true.
Proof.
  unfold Service_valid, Service_finite.
  rewrite !andb_true_iff.
  intros [[[Hb Hc] Ha] _] [[[[[Hfb Hvb] Hfc] Hvc] Hfa] Hva].
  split; [by apply valid_nonneg|]. split; [done|].
  split; [by apply valid_nonneg|]. split; [done|].
  by apply (valid_positive 7205759403792794 (-56)).
Qed.

Lemma area_multiplier_positive service a :
  Service_valid service = true -> Service_finite service = true ->
  exists m e,
    Spec.area_multiplier service a = S754_finite false m e
    /\ bounded F64.prec F64.emax m e = true.
Proof.
  intros Hvalid Hfinite.
  destruct (Service_fields_nonneg _ Hvalid Hfinite) as (_ & _ & _ & _ & Ha).
  unfold Spec.area_multiplier.
  repeat case_match; try done; by eexists _, _.
Qed.

Lemma int_to_float_of_Z k :
  (forall s, F64.of_Z k <> S754_infinity s) ->
  int_to_float k = Ok (F64.of_Z k).
Proof.
  unfold int_to_float. intros Hk.
  destruct (F64.of_Z k) as [| s | |] eqn:Hof; try done.
  by destruct (Hk s).
Qed.

Lemma int_to_float_Ok k x :
  int_to_float k = Ok x ->
  x = F64.of_Z k /\ forall s, x <> S754_infinity s.
Proof.
  unfold int_to_float.
  destruct (F64.of_Z k) as [| s | |] eqn:Hof; try done;
    by intros [= <-].
Qed.

Lemma price_of_extra_mono service a x x' :
  Service_valid service = true -> Service_finite service = true ->
  le_nonneg x x' -> F64.is_finite x' = true ->
  le_nonneg (price_of_extra service a x) (price_of_extra service a x').
Proof.
  intros Hvalid Hfinite Hle Hfx'.
  destruct (Service_fields_nonneg _ Hvalid Hfinite)
    as (Hb & Hfb & Hc & Hfc & _).
  destruct (area_multiplier_positive service a Hvalid Hfinite)
    as (m & e & Ha & Hbound).
  unfold price_of_extra. rewrite Ha.
  apply py_round_mono, mul_mono_l; [|done|done|by right; eexists _, _].
  apply add_mono_r; [done..|].
  apply mul_mono_l; [done..|by left].
Qed.

(** C7. For a service of the data model (prices that are finite numbers
    with [base_price >= 0], [color_price_per_color >= 0] and
    [print_area_multiplier >= 0.1]) and two requests that differ in
    [colors] alone: when the request with more colors has a price before
    the discount, the request with fewer colors has one too, and it is not
    greater. *)
Theorem pre_discount_monotone_in_colors service req c1 c2 v2 :
  Service_valid service = true ->
  Service_finite service = true ->
  c1 <= c2 ->
  pre_discount_unit_price service (with_colors req c2) = Ok v2 ->
  exists v1,
    pre_discount_unit_price service (with_colors req c1) = Ok v1
    /\ F64.leb v1 v2 = true.
Proof.
  intros Hvalid Hfinite Hc.
  rewrite !pre_discount_unit_price_spec.
  unfold Spec.unit_price_before_discount, Spec.color_add, int_mul_float.
  cbn [with_colors colors print_area].
  set (k1 := Z.max 0 (c1 - 1)). set (k2 := Z.max 0 (c2 - 1)).
  pose proof (of_Z_mono k1 k2 ltac:(lia)) as Hle.
  unfold_result.
  destruct (int_to_float k2) as [x2|] eqn:Hk2; [|done].
  apply int_to_float_Ok in Hk2 as [-> Hfin2].
  intros [= <-].
  assert (F64.is_finite (F64.of_Z k2) = true) as Hf2.
  { destruct Hle as (_ & Hn2 & _).
    destruct (F64.of_Z k2) as [|s| |]; try done. by destruct (Hfin2 s). }
  rewrite int_to_float_of_Z.
  - eexists. split; [done|].
    by apply (price_of_extra_mono service (print_area req)).
  - intros s Hinf. destruct Hle as (Hn1 & _ & Hle).
    rewrite Hinf in Hn1, Hle. simpl in Hn1. subst s.
    by destruct (F64.of_Z k2).
Qed.

Lemma pre_discount_monotone_in_colors_witness :
  let req := {| service_key := "tshirt"; quantity := 10; colors := 1;
                print_area := "small" |} in
  Service_valid tshirt = true
  /\ Service_finite tshirt = true
  /\ 2 <= 5
  /\ pre_discount_unit_price tshirt (with_colors req 5)
     = Ok (F64.decimal 666 2)
  /\ exists v1,
       pre_discount_unit_price tshirt (with_colors req 2) = Ok v1
       /\ F64.leb v1 (F64.decimal 666 2) = true.
Proof.
  intros req.
  assert (Hvalid : Service_valid tshirt = true) by (vm_compute; reflexivity).
  assert (Hfinite : Service_finite tshirt = true)
    by (vm_compute; reflexivity).
  assert (Hlt : 2 <= 5) by lia.
  assert (Hv2 : pre_discount_unit_price tshirt (with_colors req 5)
                = Ok (F64.decimal 666 2)) by (vm_compute; reflexivity).
  split; [exact Hvalid|]. split; [exact Hfinite|]. split; [exact Hlt|].
  split; [exact Hv2|].
  exact (pre_discount_monotone_in_colors tshirt req 2 5 _
           Hvalid Hfinite Hlt Hv2).
Defined.

(** * Further properties of the handlers *)

(** ** Seeding and listing the catalog *)

Lemma seed_fold generate_id (l : list Service) : forall d,
  fold_left (fun d s => snd (create_document_service generate_id d s)) l d
  = {| coll_service := coll_service d ++ l;
       coll_quoterequest := coll_quoterequest d |}.
Proof.
  induction l as [|s l IH]; intros d; simpl.
  - rewrite app_nil_r. by destruct d.
  - rewrite IH. simpl. by rewrite <- app_assoc.
Qed.

Lemma seed_services_empty generate_id d :
  coll_service d = [] ->
  seed_services generate_id (Some d)
  = (Ok {| seeded_flag := true; message := None; count := Some 3 |},
     Some {| coll_service := defaults;
             coll_quoterequest := coll_quoterequest d |}).
Proof.
  intros Hcoll. unfold seed_services. rewrite seed_fold, Hcoll. done.
Qed.

Lemma seed_services_nonempty generate_id d :
  coll_service d <> [] ->
  seed_services generate_id (Some d)
  = (Ok {| seeded_flag := false; message := Some "Services already exist";
           count := None |}, Some d).
Proof.
  intros Hcoll. unfold seed_services.
  destruct (coll_service d) as [|s l]; [done|].
  by rewrite (proj2 (Z.ltb_lt 0 _)) by (simpl length; lia).
Qed.

(** X1. [seed_services] writes the catalog at most once: run on its own
    outcome it reports [seeded = False] and changes nothing, whatever the
    store was; a catalog that already has a service is left as it is, and
    the stored quotes are never touched. *)
Theorem seed_services_idempotent generate_id db :
  let first := seed_services generate_id db in
  let second := seed_services generate_id (snd first) in
  snd second = snd first
  /\ (forall resp, fst first = Ok resp ->
       exists resp', fst second = Ok resp' /\ seeded_flag resp' = false)
  /\ (forall d, db = Some d -> coll_service d <> [] -> snd first = db)
  /\ (forall d d', db = Some d -> snd first = Some d' ->
       coll_quoterequest d' = coll_quoterequest d).
Proof.
  destruct db as [d|]; [|done].
  destruct (coll_service d) as [|s l] eqn:Hcoll; cbv zeta.
  - rewrite (seed_services_empty _ d Hcoll). cbn [fst snd].
    rewrite seed_services_nonempty by done. cbn [fst snd].
    split; [done|]. split; [intros resp _; by eexists|].
    split; [intros d0 [= <-]; by rewrite Hcoll|].
    by intros d0 d' [= <-] [= <-].
  - rewrite (seed_services_nonempty _ d) by (by rewrite Hcoll).
    cbn [fst snd].
    rewrite (seed_services_nonempty _ d) by (by rewrite Hcoll).
    cbn [fst snd].
    split; [done|]. split; [intros resp _; by eexists|].
    split; [done|]. by intros d0 d' [= <-] [= <-].
Qed.

Lemma seed_services_idempotent_witness :
  let seeded_once := snd (seed_services (fun _ => "id")
                            (Some {| coll_service := [];
                                     coll_quoterequest := [] |})) in
  seeded_once = Some {| coll_service := defaults; coll_quoterequest := [] |}
  /\ snd (seed_services (fun _ => "id") seeded_once) = seeded_once.
Proof.
  intros seeded_once. split; [reflexivity|].
  apply (seed_services_idempotent (fun _ => "id")
           (Some {| coll_service := []; coll_quoterequest := [] |})).
Defined.

(** X2. Seeding a configured store whose catalog is empty writes the three
    services in the order of the source and reports [count = 3].
    Afterwards every seeded service is found under its own key (the keys
    are distinct), meets the field constraints of [Service] with finite
    prices, and [list_services] returns the three of them. *)
Theorem seed_services_catalog generate_id unavailable d :
  coll_service d = [] ->
  exists resp d',
    seed_services generate_id (Some d) = (Ok resp, Some d')
    /\ seeded_flag resp = true
    /\ count resp = Some 3
    /\ coll_service d' = defaults
    /\ NoDup (List.map key defaults)
    /\ (forall s, In s defaults ->
          find_one_service d' (key s) = Some s
          /\ Service_valid s = true
          /\ Service_finite s = true)
    /\ list_services unavailable (Some d') = Ok defaults.
Proof.
  intros Hcoll. rewrite (seed_services_empty _ d Hcoll).
  eexists _, _. split; [done|]. split; [done|]. split; [done|].
  split; [done|]. split.
  { apply (bool_decide_unpack _). by vm_compute. }
  split.
  - intros s Hs. unfold find_one_service. cbn [coll_service].
    simpl in Hs. destruct Hs as [<-|[<-|[<-|[]]]];
      (split; [reflexivity|split; vm_compute; reflexivity]).
  - unfold list_services, get_documents_service. cbn [coll_service].
    vm_compute. reflexivity.
Qed.

Lemma seed_services_catalog_witness :
  let empty := {| coll_service := []; coll_quoterequest := [] |} in
  coll_service empty = []
  /\ exists resp d',
       seed_services (fun _ => "id") (Some empty) = (Ok resp, Some d')
       /\ coll_service d' = defaults.
Proof.
  intros empty. split; [reflexivity|].
  destruct (seed_services_catalog (fun _ => "id")
              (HTTPException 500 "unavailable") empty eq_refl)
    as (resp & d' & Hseed & _ & _ & Hcat & _).
  by exists resp, d'.
Defined.

(** ** Quotes and prices *)

(** X3. Prices do not depend on the quotes that are stored: whatever
    [create_quote] answers, [calculate_price] and [list_services] give on
    the store it leaves behind what they gave before, so the same quote
    asked twice is estimated at the same total. *)
Theorem create_quote_keeps_prices generate_id unavailable db q :
  let after := snd (create_quote generate_id db q) in
  (forall req, calculate_price after req = calculate_price db req)
  /\ list_services unavailable after = list_services unavailable db
  /\ (forall res,
        fst (create_quote generate_id db q) = Ok res ->
        exists res',
          fst (create_quote generate_id after q) = Ok res'
          /\ r_estimated_total res' = r_estimated_total res).
Proof.
  assert (Hsame : forall req,
            calculate_price (snd (create_quote generate_id db q)) req
            = calculate_price db req).
  { intros req. unfold create_quote. destruct db as [d|]; [|done].
    by destruct (calculate_price (Some d) (PriceRequest_of_quote q)). }
  cbv zeta. split; [done|]. split.
  - unfold create_quote. destruct db as [d|]; [|done].
    by destruct (calculate_price (Some d) (PriceRequest_of_quote q)).
  - intros res Hres.
    unfold create_quote in Hres |- *. destruct db as [d|]; [|done].
    pose proof (Hsame (PriceRequest_of_quote q)) as Hq.
    unfold create_quote in Hq |- *.
    destruct (calculate_price (Some d) (PriceRequest_of_quote q))
      as [price|] eqn:Hprice; [|done].
    cbn [fst snd create_document_quoterequest] in *.
    rewrite Hq. injection Hres as <-. by eexists.
Qed.

Lemma create_quote_keeps_prices_witness :
  let q := {| customer_name := "Ada"; customer_email := "ada@example.org";
              q_service_key := "tshirt"; q_quantity := 100; q_colors := 3;
              q_print_area := "medium"; notes := None;
              estimated_total := None |} in
  let after := snd (create_quote (fun _ => "id") (Some seeded) q) in
  fst (create_quote (fun _ => "id") (Some seeded) q)
  = Ok {| id := "id"; r_estimated_total := F64.of_Z 503 |}
  /\ exists res',
       fst (create_quote (fun _ => "id") after q) = Ok res'
       /\ r_estimated_total res' = F64.of_Z 503.
Proof.
  intros q after.
  assert (Hrun : fst (create_quote (fun _ => "id") (Some seeded) q)
                 = Ok {| id := "id"; r_estimated_total := F64.of_Z 503 |})
    by (vm_compute; reflexivity).
  split; [exact Hrun|].
  exact (proj2 (proj2 (create_quote_keeps_prices (fun _ => "id")
                         (HTTPException 500 "unavailable")
                         (Some seeded) q)) _ Hrun).
Defined.

(** ** Validation of a quote request, completed *)



(** ** More on binary64 rounding *)

Lemma binary_round_aux_opp s m e l :
  binary_round_aux F64.prec F64.emax (negb s) m e l
  = SFopp (binary_round_aux F64.prec F64.emax s m e l).
Proof.
  unfold binary_round_aux.
  destruct (shr_fexp F64.prec F64.emax m e l) as [mrs e'].
  destruct (shr_fexp F64.prec F64.emax _ e' loc_Exact) as [mrs' e''].
  destruct (shr_m mrs'); [done| |done].
  by destruct (e'' <=? F64.emax - F64.prec).
Qed.

Lemma mul_comm x y : F64.mul x y = F64.mul y x.
Proof.
  unfold F64.mul.
  destruct x as [sx|sx| |sx mx ex], y as [sy|sy| |sy my ey]; simpl;
    rewrite ?(xorb_comm sx sy); try done.
  by rewrite Pos.mul_comm, Z.add_comm.
Qed.

Lemma rounds_to_unique X f g : rounds_to X f -> rounds_to X g -> f = g.
Proof.
  intros (d & n & Hd & HX & Hn & ->) (d' & k & Hd' & HX' & Hk & ->).
  assert (d = d') as <-.
  { destruct (Z.lt_trichotomy d d') as [Hlt|[Heq|Hgt]]; [|done|].
    - pose proof (grain_le d (d' - 1) ltac:(lia)). lia.
    - pose proof (grain_le d' (d - 1) ltac:(lia)). lia. }
  assert (0 < grain (fexp64 d)) as Hg
    by (apply grain_pos; rewrite fexp64_eq; unfold bias; lia).
  pose proof (nearest_mono X X _ n k Hg ltac:(lia) Hn Hk).
  pose proof (nearest_mono X X _ k n Hg ltac:(lia) Hk Hn).
  f_equal. lia.
Qed.

Lemma mul_one x : nonneg x -> F64.mul x (F64.of_Z 1) = x.
Proof.
  change (F64.of_Z 1) with (S754_finite false 4503599627370496 (-52)).
  destruct x as [sx|sx| |sx mx ex]; try done.
  - intros _. unfold F64.mul. simpl. by rewrite xorb_false_r.
  - simpl. by intros ->.
  - intros [-> Hb].
    eapply rounds_to_unique; [by apply mul_spec|].
    pose proof (bounded_rounds_to _ _ Hb) as Hx.
    replace (Z.pos mx * 4503599627370496 * grain (ex + -52))
      with (val mx ex); [done|].
    apply bounded_canonical in Hb as [Hc _]. rewrite fexp64_eq in Hc.
    unfold val.
    assert (grain ex = 2 ^ 52 * grain (ex + -52)) as ->.
    { rewrite <- grain_add by (unfold bias; lia). f_equal. lia. }
    change (2 ^ 52) with 4503599627370496. lia.
Qed.

Lemma positive_finite_nonneg x : positive_finite x -> nonneg x.
Proof. by intros (m & e & -> & Hb). Qed.

Lemma mul_mono_r x y y' :
  nonneg x -> le_nonneg y y' -> positive_finite y -> positive_finite y' ->
  le_nonneg (F64.mul x y) (F64.mul x y').
Proof.
  intros Hx Hle (m & e & -> & Hb) (m' & e' & -> & Hb').
  destruct x as [sx|sx| |sx mx ex].
  - unfold le_nonneg, F64.mul. by repeat split.
  - simpl in Hx. subst sx. unfold le_nonneg, F64.mul. by repeat split.
  - done.
  - rewrite !(mul_comm (S754_finite sx mx ex)).
    apply mul_mono_l; [done..|by left].
Qed.

Lemma mul_mono_l_pos x x' y :
  le_nonneg x x' -> positive_finite y ->
  le_nonneg (F64.mul x y) (F64.mul x' y).
Proof.
  intros Hle (m & e & -> & Hb).
  apply mul_mono_l; [done..|right; by eexists _, _].
Qed.

Lemma le_nonneg_refl x : nonneg x -> le_nonneg x x.
Proof. intros Hx. split; [done|]. split; [done|]. by apply nonneg_leb_refl. Qed.

Lemma of_Z_opp z : z <> 0 -> F64.of_Z (- z) = SFopp (F64.of_Z z).
Proof.
  unfold F64.of_Z, binary_normalize.
  destruct z as [|p|p]; [done| |]; intros _.
  - change (- Z.pos p) with (Z.neg p). unfold binary_round.
    destruct (shl_align _ _ _) as [mz ez].
    apply (binary_round_aux_opp false).
  - change (- Z.neg p) with (Z.pos p). unfold binary_round.
    destruct (shl_align _ _ _) as [mz ez].
    apply (binary_round_aux_opp true).
Qed.

Lemma inf_le_nonneg x :
  le_nonneg (S754_infinity false) x -> x = S754_infinity false.
Proof.
  intros (_ & Hx & Hle).
  destruct x as [sx|sx| |sx mx ex]; try done.
  simpl in Hx. by subst.
Qed.

Lemma le_nonneg_finite x y :
  le_nonneg x y -> F64.is_finite y = true -> F64.is_finite x = true.
Proof.
  intros (Hx & Hy & Hle) Hfy.
  destruct x as [sx|sx| |sx mx ex]; try done.
  simpl in Hx. subst sx. by destruct y.
Qed.

Lemma of_Z_range z :
  0 <= z ->
  (z < int_max -> F64.is_finite (F64.of_Z z) = true)
  /\ (int_max <= z -> F64.of_Z z = S754_infinity false).
Proof.
  intros Hz. split.
  - intros Hlt.
    apply (le_nonneg_finite _ (F64.of_Z (int_max - 1))).
    + apply of_Z_mono. lia.
    + by vm_compute.
  - intros Hge. apply inf_le_nonneg.
    assert (F64.of_Z int_max = S754_infinity false) as <- by (by vm_compute).
    apply of_Z_mono. unfold int_max in *. lia.
Qed.

Lemma int_to_float_range z :
  (Z.abs z < int_max -> int_to_float z = Ok (F64.of_Z z))
  /\ (int_max <= Z.abs z -> int_to_float z = Raise overflow).
Proof.
  assert (Hpos : 0 < int_max) by done.
  destruct (Z.le_gt_cases 0 z) as [Hz|Hz].
  - destruct (of_Z_range z Hz) as [Hfin Hinf].
    rewrite Z.abs_eq by done. unfold int_to_float. split.
    + intros Hlt. specialize (Hfin Hlt). by destruct (F64.of_Z z).
    + intros Hge. by rewrite (Hinf Hge).
  - destruct (of_Z_range (- z) ltac:(lia)) as [Hfin Hinf].
    rewrite Z.abs_neq by lia. unfold int_to_float.
    rewrite (of_Z_opp z) in Hfin, Hinf by lia. split.
    + intros Hlt. specialize (Hfin Hlt). by destruct (F64.of_Z z).
    + intros Hge. specialize (Hinf Hge). by destruct (F64.of_Z z).
Qed.

(** ** Prices as the handlers compute them *)

Lemma positive_finite_one : positive_finite (F64.of_Z 1).
Proof. exists 4503599627370496%positive, (-52). split; by vm_compute. Qed.

Lemma positive_finite_small : positive_finite (F64.decimal 9 1).
Proof. exists 8106479329266893%positive, (-53). split; by vm_compute. Qed.

Lemma small_le_one : le_nonneg (F64.decimal 9 1) (F64.of_Z 1).
Proof.
  split; [apply positive_finite_nonneg, positive_finite_small|].
  split; [apply positive_finite_nonneg, positive_finite_one|].
  by vm_compute.
Qed.

Lemma applied_factor_positive q : positive_finite (applied_factor q).
Proof.
  unfold applied_factor, Spec.discount_factor.
  repeat case_match; simplify_eq;
    (eexists _, _; split; [by vm_compute|by vm_compute]).
Qed.

Lemma applied_factor_mono q1 q2 :
  q1 <= q2 -> le_nonneg (applied_factor q2) (applied_factor q1).
Proof.
  intros Hq.
  assert (H1 : forall f g : float,
            nonneg f -> nonneg g -> SFleb f g = true -> le_nonneg f g)
    by (by intros f g ? ? ?).
  assert (Ha : nonneg (F64.decimal 75 2)) by (by vm_compute).
  assert (Hb : nonneg (F64.decimal 82 2)) by (by vm_compute).
  assert (Hc : nonneg (F64.decimal 9 1)) by (by vm_compute).
  assert (Hd : nonneg (F64.of_Z 1)) by (by vm_compute).
  unfold applied_factor, Spec.discount_factor.
  destruct (Z.leb_spec 100 q1), (Z.leb_spec 50 q1), (Z.leb_spec 20 q1),
    (Z.leb_spec 100 q2), (Z.leb_spec 50 q2), (Z.leb_spec 20 q2);
    try lia; (apply H1; [done|done|by vm_compute]).
Qed.

Lemma volume_discount_factor q p :
  nonneg p ->
  volume_discount q p = py_round (F64.mul p (applied_factor q)) 2.
Proof.
  intros Hp. rewrite volume_discount_spec.
  unfold Spec.unit_price_after_discount, applied_factor.
  destruct (Spec.discount_factor q); [done|]. by rewrite mul_one.
Qed.

Lemma volume_discount_mono_price q p p' :
  le_nonneg p p' -> le_nonneg (volume_discount q p) (volume_discount q p').
Proof.
  intros Hle. pose proof Hle as (Hp & Hp' & _).
  rewrite !volume_discount_factor by done.
  apply py_round_mono, mul_mono_l_pos; [done|apply applied_factor_positive].
Qed.

Lemma volume_discount_mono_quantity q1 q2 p :
  nonneg p -> q1 <= q2 ->
  le_nonneg (volume_discount q2 p) (volume_discount q1 p).
Proof.
  intros Hp Hq. rewrite !volume_discount_factor by done.
  apply py_round_mono, mul_mono_r;
    [done|by apply applied_factor_mono|apply applied_factor_positive..].
Qed.

Lemma pre_discount_Ok service req v :
  pre_discount_unit_price service req = Ok v ->
  let extra := F64.of_Z (Z.max 0 (colors req - 1)) in
  int_to_float (Z.max 0 (colors req - 1)) = Ok extra
  /\ nonneg extra /\ F64.is_finite extra = true
  /\ v = price_of_extra service (print_area req) extra.
Proof.
  rewrite pre_discount_unit_price_spec.
  unfold Spec.unit_price_before_discount, Spec.color_add, int_mul_float.
  unfold_result.
  destruct (int_to_float (Z.max 0 (colors req - 1))) as [x|] eqn:Hx; [|done].
  apply int_to_float_Ok in Hx as [-> Hfin]. intros [= <-].
  assert (0 <= Z.max 0 (colors req - 1) <= Z.max 0 (colors req - 1))
    as Hk by lia.
  pose proof (of_Z_mono _ _ Hk) as (Hn & _ & _).
  split; [done|]. split; [done|]. split; [|done].
  destruct (F64.of_Z _) as [|s| |]; try done. by destruct (Hfin s).
Qed.

Lemma price_of_extra_nonneg service a x :
  Service_valid service = true -> Service_finite service = true ->
  nonneg x -> F64.is_finite x = true ->
  nonneg (price_of_extra service a x).
Proof.
  intros Hvalid Hfinite Hx Hfx.
  by destruct (price_of_extra_mono service a x x Hvalid Hfinite
                 (le_nonneg_refl x Hx) Hfx).
Qed.

Lemma of_Z_positive q x :
  1 <= q -> int_to_float q = Ok x -> x = F64.of_Z q /\ positive_finite x.
Proof.
  intros Hq Hx. apply int_to_float_Ok in Hx as [-> Hfin]. split; [done|].
  pose proof (of_Z_mono 1 q ltac:(lia)) as (_ & Hn & Hle).
  destruct (F64.of_Z q) as [s|s| |s m e]; try done.
  - by destruct (Hfin s).
  - destruct Hn as [-> Hb]. by exists m, e.
Qed.

Lemma calculate_price_Ok d req service resp :
  find_one_service d (service_key req) = Some service ->
  calculate_price (Some d) req = Ok resp ->
  exists before n,
    pre_discount_unit_price service req = Ok before
    /\ minimum_quantity service <= quantity req
    /\ int_to_float (quantity req) = Ok n
    /\ unit_price resp = volume_discount (quantity req) before
    /\ total_price resp = py_round (F64.mul (unit_price resp) n) 2.
Proof.
  intros Hfind Hresp.
  pose proof (calculate_price_Ok_valid _ _ _ _ Hfind Hresp) as Hvalid.
  revert Hresp. rewrite (calculate_price_found _ _ _ Hfind Hvalid).
  unfold float_mul_int. unfold_result.
  destruct (pre_discount_unit_price service req) as [before|]; [|done].
  destruct (Z.ltb_spec (quantity req) (minimum_quantity service)); [done|].
  destruct (int_to_float (quantity req)) as [n|]; [|done].
  intros [= <-]. by exists before, n.
Qed.

Lemma calculate_price_nonneg d req service resp :
  Service_valid service = true ->
  Service_finite service = true ->
  find_one_service d (service_key req) = Some service ->
  calculate_price (Some d) req = Ok resp ->
  nonneg (unit_price resp) /\ nonneg (total_price resp).
Proof.
  intros Hvalid Hfinite Hfind Hresp.
  destruct (calculate_price_Ok _ _ _ _ Hfind Hresp)
    as (before & n & Hpre & Hmin & Hn & -> & ->).
  apply pre_discount_Ok in Hpre as (_ & Hx & Hfx & ->).
  pose proof (price_of_extra_nonneg service (print_area req) _
                Hvalid Hfinite Hx Hfx) as Hbefore.
  destruct (volume_discount_mono_price (quantity req) _ _
              (le_nonneg_refl _ Hbefore)) as (Hunit & _ & _).
  assert (1 <= minimum_quantity service) as Hone.
  { unfold Service_valid in Hvalid. rewrite !andb_true_iff in Hvalid.
    apply Z.leb_le. tauto. }
  apply of_Z_positive in Hn as [-> Hpos]; [|lia].
  by destruct (py_round_mono _ _
                 (mul_mono_l_pos _ _ _ (le_nonneg_refl _ Hunit) Hpos))
    as (Htotal & _ & _).
Qed.

(** X5. For a service of the data model, the unit price and the total
    that [calculate_price] returns are never negative and never NaN. *)
Theorem prices_are_not_negative d req service resp :
  Service_valid service = true ->
  Service_finite service = true ->
  find_one_service d (service_key req) = Some service ->
  calculate_price (Some d) req = Ok resp ->
  F64.leb (F64.of_Z 0) (unit_price resp) = true
  /\ F64.leb (F64.of_Z 0) (total_price resp) = true
  /\ unit_price resp <> S754_nan
  /\ total_price resp <> S754_nan.
Proof.
  intros Hvalid Hfinite Hfind Hresp.
  destruct (calculate_price_nonneg _ _ _ _ Hvalid Hfinite Hfind Hresp)
    as [Hunit Htotal].
  split; [by apply (nonneg_leb_zero false)|].
  split; [by apply (nonneg_leb_zero false)|].
  split; intros Hnan; [by rewrite Hnan in Hunit|by rewrite Hnan in Htotal].
Qed.

Lemma prices_are_not_negative_witness :
  let req := {| service_key := "tshirt"; quantity := 100; colors := 3;
                print_area := "medium" |} in
  let resp := {| unit_price := F64.decimal 503 2;
                 total_price := F64.of_Z 503;
                 breakdown :=
                   {| base := F64.of_Z 6; bd_colors := 3;
                      color_add_per_unit := F64.decimal 35 2;
                      area_multiplier := F64.of_Z 1;
                      volume_discounts := true |} |} in
  Service_valid tshirt = true
  /\ Service_finite tshirt = true
  /\ find_one_service seeded (service_key req) = Some tshirt
  /\ calculate_price (Some seeded) req = Ok resp
  /\ F64.leb (F64.of_Z 0) (unit_price resp) = true
  /\ F64.leb (F64.of_Z 0) (total_price resp) = true.
Proof.
  intros req resp.
  assert (Hvalid : Service_valid tshirt = true) by (vm_compute; reflexivity).
  assert (Hfinite : Service_finite tshirt = true)
    by (vm_compute; reflexivity).
  assert (Hfind : find_one_service seeded (service_key req) = Some tshirt)
    by reflexivity.
  assert (Hrun : calculate_price (Some seeded) req = Ok resp)
    by (vm_compute; reflexivity).
  split; [exact Hvalid|]. split; [exact Hfinite|]. split; [exact Hfind|].
  split; [exact Hrun|].
  destruct (prices_are_not_negative seeded req tshirt resp
              Hvalid Hfinite Hfind Hrun) as (Hu & Ht & _).
  split; [exact Hu|exact Ht].
Defined.

(** X6. A larger order never has a higher unit price: for a service of
    the data model and two priced requests that differ in quantity alone,
    the unit price of the larger quantity is at most that of the smaller
    one; in particular a discounted unit price never exceeds the
    undiscounted one. *)
Theorem unit_price_never_rises_with_quantity d req service q1 q2 r1 r2 :
  Service_valid service = true ->
  Service_finite service = true ->
  find_one_service d (service_key req) = Some service ->
  q1 <= q2 ->
  calculate_price (Some d) (with_quantity req q1) = Ok r1 ->
  calculate_price (Some d) (with_quantity req q2) = Ok r2 ->
  F64.leb (unit_price r2) (unit_price r1) = true.
Proof.
  intros Hvalid Hfinite Hfind Hq H1 H2.
  destruct (calculate_price_Ok d (with_quantity req q1) service r1 Hfind H1)
    as (b1 & n1 & Hpre1 & _ & _ & -> & _).
  destruct (calculate_price_Ok d (with_quantity req q2) service r2 Hfind H2)
    as (b2 & n2 & Hpre2 & _ & _ & -> & _).
  cbn [with_quantity quantity] in *.
  assert (pre_discount_unit_price service (with_quantity req q2)
          = pre_discount_unit_price service (with_quantity req q1)) as Heq
    by done.
  rewrite Heq, Hpre1 in Hpre2. injection Hpre2 as <-.
  apply pre_discount_Ok in Hpre1 as (_ & Hx & Hfx & ->).
  cbn [with_quantity print_area colors].
  apply volume_discount_mono_quantity; [|done].
  by apply price_of_extra_nonneg.
Qed.

Lemma unit_price_never_rises_with_quantity_witness :
  let req := {| service_key := "tshirt"; quantity := 1; colors := 3;
                print_area := "medium" |} in
  let bd := {| base := F64.of_Z 6; bd_colors := 3;
               color_add_per_unit := F64.decimal 35 2;
               area_multiplier := F64.of_Z 1;
               volume_discounts := true |} in
  let r1 := {| unit_price := F64.decimal 67 1; total_price := F64.of_Z 67;
               breakdown := bd |} in
  let r2 := {| unit_price := F64.decimal 503 2; total_price := F64.of_Z 503;
               breakdown := bd |} in
  Service_valid tshirt = true
  /\ Service_finite tshirt = true
  /\ find_one_service seeded (service_key req) = Some tshirt
  /\ 10 <= 100
  /\ calculate_price (Some seeded) (with_quantity req 10) = Ok r1
  /\ calculate_price (Some seeded) (with_quantity req 100) = Ok r2
  /\ F64.leb (unit_price r2) (unit_price r1) = true.
Proof.
  intros req bd r1 r2.
  assert (Hvalid : Service_valid tshirt = true) by (vm_compute; reflexivity).
  assert (Hfinite : Service_finite tshirt = true)
    by (vm_compute; reflexivity).
  assert (Hfind : find_one_service seeded (service_key req) = Some tshirt)
    by reflexivity.
  assert (Hq : 10 <= 100) by lia.
  assert (H1 : calculate_price (Some seeded) (with_quantity req 10) = Ok r1)
    by (vm_compute; reflexivity).
  assert (H2 : calculate_price (Some seeded) (with_quantity req 100) = Ok r2)
    by (vm_compute; reflexivity).
  split; [exact Hvalid|]. split; [exact Hfinite|]. split; [exact Hfind|].
  split; [exact Hq|]. split; [exact H1|]. split; [exact H2|].
  exact (unit_price_never_rises_with_quantity seeded req tshirt 10 100 r1 r2
           Hvalid Hfinite Hfind Hq H1 H2).
Defined.

(** X7. Within one discount tier the total never decreases with the
    quantity: for a service of the data model and two priced requests that
    differ in quantity alone and fall in the same tier, the larger order
    has the larger or equal total. *)
Theorem total_grows_within_a_tier d req service q1 q2 r1 r2 :
  Service_valid service = true ->
  Service_finite service = true ->
  find_one_service d (service_key req) = Some service ->
  q1 <= q2 ->
  Spec.discount_factor q1 = Spec.discount_factor q2 ->
  calculate_price (Some d) (with_quantity req q1) = Ok r1 ->
  calculate_price (Some d) (with_quantity req q2) = Ok r2 ->
  unit_price r1 = unit_price r2
  /\ F64.leb (total_price r1) (total_price r2) = true.
Proof.
  intros Hvalid Hfinite Hfind Hq Htier H1 H2.
  destruct (calculate_price_Ok d (with_quantity req q1) service r1 Hfind H1)
    as (b1 & n1 & Hpre1 & Hmin1 & Hn1 & Hu1 & ->).
  destruct (calculate_price_Ok d (with_quantity req q2) service r2 Hfind H2)
    as (b2 & n2 & Hpre2 & Hmin2 & Hn2 & Hu2 & ->).
  cbn [with_quantity quantity] in *.
  assert (pre_discount_unit_price service (with_quantity req q2)
          = pre_discount_unit_price service (with_quantity req q1)) as Heq
    by done.
  rewrite Heq, Hpre1 in Hpre2. injection Hpre2 as <-.
  apply pre_discount_Ok in Hpre1 as (_ & Hx & Hfx & ->).
  cbn [with_quantity print_area colors] in *.
  pose proof (price_of_extra_nonneg service (print_area req) _
                Hvalid Hfinite Hx Hfx) as Hbefore.
  destruct (volume_discount_mono_price q2 _ _ (le_nonneg_refl _ Hbefore))
    as (Hunit & _ & _).
  assert (unit_price r1 = unit_price r2) as Hsame.
  { rewrite Hu1, Hu2, !volume_discount_spec.
    unfold Spec.unit_price_after_discount. by rewrite Htier. }
  split; [done|]. rewrite Hsame. rewrite Hu2.
  assert (1 <= minimum_quantity service) as Hone.
  { unfold Service_valid in Hvalid. rewrite !andb_true_iff in Hvalid.
    apply Z.leb_le. tauto. }
  apply of_Z_positive in Hn1 as [-> Hpos1]; [|lia].
  apply of_Z_positive in Hn2 as [-> Hpos2]; [|lia].
  apply py_round_mono, mul_mono_r; [done| |done..].
  apply of_Z_mono. lia.
Qed.

Lemma total_grows_within_a_tier_witness :
  let req := {| service_key := "tshirt"; quantity := 1; colors := 3;
                print_area := "medium" |} in
  let bd := {| base := F64.of_Z 6; bd_colors := 3;
               color_add_per_unit := F64.decimal 35 2;
               area_multiplier := F64.of_Z 1;
               volume_discounts := true |} in
  let r1 := {| unit_price := F64.decimal 603 2;
               total_price := F64.decimal 1206 1; breakdown := bd |} in
  let r2 := {| unit_price := F64.decimal 603 2;
               total_price := F64.decimal 1809 1; breakdown := bd |} in
  Service_valid tshirt = true
  /\ Service_finite tshirt = true
  /\ find_one_service seeded (service_key req) = Some tshirt
  /\ 20 <= 30
  /\ Spec.discount_factor 20 = Spec.discount_factor 30
  /\ calculate_price (Some seeded) (with_quantity req 20) = Ok r1
  /\ calculate_price (Some seeded) (with_quantity req 30) = Ok r2
  /\ unit_price r1 = unit_price r2
  /\ F64.leb (total_price r1) (total_price r2) = true.
Proof.
  intros req bd r1 r2.
  assert (Hvalid : Service_valid tshirt = true) by (vm_compute; reflexivity).
  assert (Hfinite : Service_finite tshirt = true)
    by (vm_compute; reflexivity).
  assert (Hfind : find_one_service seeded (service_key req) = Some tshirt)
    by reflexivity.
  assert (Hq : 20 <= 30) by lia.
  assert (Htier : Spec.discount_factor 20 = Spec.discount_factor 30)
    by reflexivity.
  assert (H1 : calculate_price (Some seeded) (with_quantity req 20) = Ok r1)
    by (vm_compute; reflexivity).
  assert (H2 : calculate_price (Some seeded) (with_quantity req 30) = Ok r2)
    by (vm_compute; reflexivity).
  split; [exact Hvalid|]. split; [exact Hfinite|]. split; [exact Hfind|].
  split; [exact Hq|]. split; [exact Htier|].
  split; [exact H1|]. split; [exact H2|].
  exact (total_grows_within_a_tier seeded req tshirt 20 30 r1 r2
           Hvalid Hfinite Hfind Hq Htier H1 H2).
Defined.

(** X8. The print area orders the prices before the discount: "small"
    never costs more than "medium"; a value that is none of the three
    costs what "medium" costs; "large" costs at least "medium" when the
    service's multiplier is at least 1.0, and at most "medium" when it is
    at most 1.0. *)
Theorem print_area_orders_prices service req medium :
  Service_valid service = true ->
  Service_finite service = true ->
  pre_discount_unit_price service (with_print_area req "medium") = Ok medium ->
  (exists small,
     pre_discount_unit_price service (with_print_area req "small") = Ok small
     /\ F64.leb small medium = true)
  /\ (forall a,
        a <> "small" -> a <> "large" ->
        pre_discount_unit_price service (with_print_area req a) = Ok medium)
  /\ (exists large,
        pre_discount_unit_price service (with_print_area req "large")
        = Ok large
        /\ (F64.leb (F64.of_Z 1) (print_area_multiplier service) = true ->
            F64.leb medium large = true)
        /\ (F64.leb (print_area_multiplier service) (F64.of_Z 1) = true ->
            F64.leb large medium = true)).
Proof.
  intros Hvalid Hfinite Hmed.
  pose proof Hmed as Hpre.
  apply pre_discount_Ok in Hpre as (Hconv & Hx & Hfx & ->).
  cbn [with_print_area print_area colors] in *.
  assert (Hany : forall a,
            pre_discount_unit_price service (with_print_area req a)
            = Ok (price_of_extra service a
                    (F64.of_Z (Z.max 0 (colors req - 1))))).
  { intros a. rewrite pre_discount_unit_price_spec.
    unfold Spec.unit_price_before_discount, Spec.color_add, int_mul_float.
    cbn [with_print_area print_area colors]. by rewrite Hconv. }
  destruct (Service_fields_nonneg _ Hvalid Hfinite)
    as (Hb & Hfb & Hc & Hfc & (m & e & Hpam & Hbound)).
  set (u := F64.add (base_price service)
              (F64.mul (F64.of_Z (Z.max 0 (colors req - 1)))
                       (color_price_per_color service))).
  assert (Hu : nonneg u).
  { apply add_nonneg; [done..|].
    by destruct (mul_mono_l _ _ (color_price_per_color service)
                   (le_nonneg_refl _ Hx) Hc Hfc (or_introl Hfx)). }
  pose proof positive_finite_one as Hone.
  assert (Hpos : positive_finite (print_area_multiplier service))
    by (by exists m, e).
  split; [|split].
  - eexists. split; [apply Hany|].
    unfold price_of_extra. fold u.
    apply py_round_mono, mul_mono_r;
      [exact Hu|apply small_le_one|apply positive_finite_small|exact Hone].
  - intros a Hs Hl. rewrite Hany. f_equal. unfold price_of_extra.
    f_equal. f_equal. unfold Spec.area_multiplier.
    destruct (String.eqb_spec a "small"); [done|].
    destruct (String.eqb_spec a "large"); [done|].
    by destruct (String.eqb_spec a "medium").
  - eexists. split; [apply Hany|].
    unfold price_of_extra. fold u.
    change (Spec.area_multiplier service "large")
      with (print_area_multiplier service).
    change (Spec.area_multiplier service "medium") with (F64.of_Z 1).
    split; intros Hle.
    + apply py_round_mono, mul_mono_r; [exact Hu| |exact Hone|exact Hpos].
      split; [by apply positive_finite_nonneg|].
      split; [by apply positive_finite_nonneg|exact Hle].
    + apply py_round_mono, mul_mono_r; [exact Hu| |exact Hpos|exact Hone].
      split; [by apply positive_finite_nonneg|].
      split; [by apply positive_finite_nonneg|exact Hle].
Qed.

Lemma print_area_orders_prices_witness :
  let req := {| service_key := "tshirt"; quantity := 10; colors := 3;
                print_area := "large" |} in
  Service_valid tshirt = true
  /\ Service_finite tshirt = true
  /\ pre_discount_unit_price tshirt (with_print_area req "medium")
     = Ok (F64.decimal 67 1)
  /\ exists small,
       pre_discount_unit_price tshirt (with_print_area req "small")
       = Ok small
       /\ F64.leb small (F64.decimal 67 1) = true.
Proof.
  intros req.
  assert (Hvalid : Service_valid tshirt = true) by (vm_compute; reflexivity).
  assert (Hfinite : Service_finite tshirt = true)
    by (vm_compute; reflexivity).
  assert (Hmed : pre_discount_unit_price tshirt
                   (with_print_area req "medium") = Ok (F64.decimal 67 1))
    by (vm_compute; reflexivity).
  split; [exact Hvalid|]. split; [exact Hfinite|]. split; [exact Hmed|].
  exact (proj1 (print_area_orders_prices tshirt req _
                  Hvalid Hfinite Hmed)).
Defined.

(** X9. More colors never lower what is returned: for a service of the
    data model and two requests that differ in [colors] alone, when the
    request with more colors is priced, the one with fewer colors is
    priced too, at a unit price and a total that are not greater. *)
Theorem more_colors_never_lower_the_price d req service c1 c2 r2 :
  Service_valid service = true ->
  Service_finite service = true ->
  find_one_service d (service_key req) = Some service ->
  c1 <= c2 ->
  calculate_price (Some d) (with_colors req c2) = Ok r2 ->
  exists r1,
    calculate_price (Some d) (with_colors req c1) = Ok r1
    /\ F64.leb (unit_price r1) (unit_price r2) = true
    /\ F64.leb (total_price r1) (total_price r2) = true.
Proof.
  intros Hvalid Hfinite Hfind Hc H2.
  destruct (calculate_price_Ok d (with_colors req c2) service r2 Hfind H2)
    as (b2 & n & Hpre2 & Hmin & Hn & Hu2 & Ht2).
  cbn [with_colors quantity] in *.
  pose proof Hpre2 as Hb2.
  apply pre_discount_Ok in Hb2 as (_ & Hx2 & Hfx2 & ->).
  cbn [with_colors print_area colors] in *.
  assert (0 <= Z.max 0 (c1 - 1) <= Z.max 0 (c2 - 1)) as Hk by lia.
  pose proof (of_Z_mono _ _ Hk) as Hle.
  pose proof (le_nonneg_finite _ _ Hle Hfx2) as Hfx1.
  assert (Hconv : int_to_float (Z.max 0 (c1 - 1))
                  = Ok (F64.of_Z (Z.max 0 (c1 - 1)))).
  { apply int_to_float_of_Z. intros s Hs. by rewrite Hs in Hfx1. }
  pose proof (price_of_extra_mono service (print_area req) _ _
                Hvalid Hfinite Hle Hfx2) as Hbefore.
  pose proof (volume_discount_mono_price (quantity req) _ _ Hbefore)
    as Hunit.
  assert (1 <= minimum_quantity service) as Hone.
  { unfold Service_valid in Hvalid. rewrite !andb_true_iff in Hvalid.
    apply Z.leb_le. tauto. }
  pose proof Hn as Hn'.
  apply of_Z_positive in Hn' as [-> Hpos]; [|lia].
  pose proof (py_round_mono _ _ (mul_mono_l_pos _ _ _ Hunit Hpos))
    as Htotal.
  eexists. split.
  - rewrite (calculate_price_found _ _ service) by done.
    rewrite pre_discount_unit_price_spec.
    unfold Spec.unit_price_before_discount, Spec.color_add, int_mul_float,
      float_mul_int.
    cbn [with_colors print_area colors quantity].
    rewrite Hconv, Hn. unfold_result.
    by rewrite (proj2 (Z.ltb_ge _ _)) by done.
  - cbn [unit_price total_price]. rewrite Hu2, Ht2, Hu2.
    split; [apply Hunit|apply Htotal].
Qed.

Lemma more_colors_never_lower_the_price_witness :
  let req := {| service_key := "tshirt"; quantity := 10; colors := 1;
                print_area := "medium" |} in
  let r2 := {| unit_price := F64.decimal 74 1; total_price := F64.of_Z 74;
               breakdown :=
                 {| base := F64.of_Z 6; bd_colors := 5;
                    color_add_per_unit := F64.decimal 35 2;
                    area_multiplier := F64.of_Z 1;
                    volume_discounts := true |} |} in
  Service_valid tshirt = true
  /\ Service_finite tshirt = true
  /\ find_one_service seeded (service_key req) = Some tshirt
  /\ 2 <= 5
  /\ calculate_price (Some seeded) (with_colors req 5) = Ok r2
  /\ exists r1,
       calculate_price (Some seeded) (with_colors req 2) = Ok r1
       /\ F64.leb (unit_price r1) (unit_price r2) = true
       /\ F64.leb (total_price r1) (total_price r2) = true.
Proof.
  intros req r2.
  assert (Hvalid : Service_valid tshirt = true) by (vm_compute; reflexivity).
  assert (Hfinite : Service_finite tshirt = true)
    by (vm_compute; reflexivity).
  assert (Hfind : find_one_service seeded (service_key req) = Some tshirt)
    by reflexivity.
  assert (Hc : 2 <= 5) by lia.
  assert (H2 : calculate_price (Some seeded) (with_colors req 5) = Ok r2)
    by (vm_compute; reflexivity).
  split; [exact Hvalid|]. split; [exact Hfinite|]. split; [exact Hfind|].
  split; [exact Hc|]. split; [exact H2|].
  exact (more_colors_never_lower_the_price seeded req tshirt 2 5 r2
           Hvalid Hfinite Hfind Hc H2).
Defined.

(** X10. [calculate_price] overflows exactly on integers of at least
    [2^1024 - 2^970]: for a service found in the catalog it raises
    [OverflowError] exactly when the stored document meets the constraints
    of [Service] and either [colors - 1] reaches that bound, or the
    quantity passes the minimum check and reaches it in absolute value.
    When the document meets the constraints, below the bound every request
    whose quantity reaches the minimum is answered with a price. *)
Theorem calculate_price_overflow_threshold d req service :
  find_one_service d (service_key req) = Some service ->
  (calculate_price (Some d) req = Raise overflow <->
   Service_valid service = true
   /\ (int_max <= colors req - 1
       \/ (minimum_quantity service <= quantity req
           /\ int_max <= Z.abs (quantity req))))
  /\ (Service_valid service = true ->
      colors req - 1 < int_max -> Z.abs (quantity req) < int_max ->
      minimum_quantity service <= quantity req ->
      exists resp, calculate_price (Some d) req = Ok resp).
Proof.
  intros Hfind.
  destruct (Service_valid service) eqn:Hvalid.
  - rewrite (calculate_price_found _ _ _ Hfind Hvalid).
    unfold pre_discount_unit_price, int_mul_float, float_mul_int.
    assert (Hpos : 0 < int_max) by done.
    destruct (int_to_float_range (Z.max 0 (colors req - 1))) as [Hc1 Hc2].
    destruct (int_to_float_range (quantity req)) as [Hq1 Hq2].
    rewrite Z.abs_eq in Hc1, Hc2 by lia.
    unfold_result.
    destruct (Z.lt_ge_cases (colors req - 1) int_max) as [Hc|Hc].
    + rewrite Hc1 by lia.
      destruct (Z.ltb_spec (quantity req) (minimum_quantity service))
        as [Hm|Hm].
      * split; [|lia]. split; [done|]. lia.
      * destruct (Z.lt_ge_cases (Z.abs (quantity req)) int_max) as [Hq|Hq].
        -- rewrite Hq1 by done. split; [|intros; by eexists].
           split; [done|]. lia.
        -- rewrite Hq2 by done. split; [|lia].
           split; [intros _; split; [done|lia]|done].
    + rewrite Hc2 by lia. split; [|lia].
      split; [intros _; split; [done|by left]|done].
  - destruct (calculate_price_invalid _ _ _ Hfind Hvalid) as [-> _].
    split; [|done]. split; [done|]. by intros [? _].
Qed.

Lemma calculate_price_overflow_threshold_witness :
  let req := {| service_key := "tshirt"; quantity := 10;
                colors := 2 ^ 1024; print_area := "medium" |} in
  find_one_service seeded (service_key req) = Some tshirt
  /\ Service_valid tshirt = true
  /\ int_max <= colors req - 1
  /\ calculate_price (Some seeded) req = Raise overflow.
Proof.
  intros req.
  assert (Hfind : find_one_service seeded (service_key req) = Some tshirt)
    by reflexivity.
  assert (Hvalid : Service_valid tshirt = true) by (vm_compute; reflexivity).
  assert (Hc : int_max <= colors req - 1) by (vm_compute; discriminate).
  split; [exact Hfind|]. split; [exact Hvalid|]. split; [exact Hc|].
  exact (proj2 (proj1 (calculate_price_overflow_threshold seeded req tshirt
                         Hfind)) (conj Hvalid (or_introl Hc))).
Defined.

Lemma calculate_price_in_range d req service :
  find_one_service d (service_key req) = Some service ->
  Service_valid service = true ->
  colors req - 1 < int_max -> Z.abs (quantity req) < int_max ->
  minimum_quantity service <= quantity req ->
  exists resp, calculate_price (Some d) req = Ok resp.
Proof.
  intros Hfind Hvalid Hc Hq Hm.
  rewrite (calculate_price_found _ _ _ Hfind Hvalid).
  unfold pre_discount_unit_price, int_mul_float, float_mul_int.
  assert (Hpos : 0 < int_max) by done.
  destruct (int_to_float_range (Z.max 0 (colors req - 1))) as [Hc1 _].
  destruct (int_to_float_range (quantity req)) as [Hq1 _].
  rewrite Z.abs_eq in Hc1 by lia.
  rewrite Hc1 by lia. unfold_result.
  rewrite (proj2 (Z.ltb_ge _ _)) by done.
  rewrite Hq1 by done. by eexists.
Qed.

Lemma validated_bounds validate_email body q :
  QuoteRequest_validate validate_email body = Ok q ->
  1 <= q_quantity q <= 100000 /\ 1 <= q_colors q <= 10.
Proof.
  destruct (validation_errors validate_email body)
    as (errors & _ & _ & _ & _ & _ & _ & Hnil & ->).
  cbv zeta in Hnil.
  destruct errors as [|field rest]; [|done].
  intros [= <-]. cbn.
  destruct Hnil as [(_ & _ & H3 & H4 & _) _]; [done|].
  rewrite andb_true_iff, !Z.leb_le in H3, H4. lia.
Qed.

(** X11. [/quotes] never fails with [OverflowError]: the ranges that
    [QuoteRequest] puts on [quantity] and [colors] keep every integer far
    inside the float range.  With a store configured, a body that
    validates is answered "not found" when its service key is unknown and
    with pydantic's [ValidationError] when the stored service does not meet
    the constraints of its model; when it meets them, the answer is "bad
    request" for a quantity below the service's minimum and a stored quote
    otherwise.  The store is left as it was in every case but the last. *)
Theorem post_quotes_outcomes validate_email generate_id d body q :
  QuoteRequest_validate validate_email body = Ok q ->
  (forall msg,
     fst (post_quotes validate_email generate_id (Some d) body)
     <> Raise (OverflowError msg))
  /\ (find_one_service d (q_service_key q) = None ->
      post_quotes validate_email generate_id (Some d) body
      = (Raise (HTTPException 404 "Service not found"), Some d))
  /\ (forall service,
        find_one_service d (q_service_key q) = Some service ->
        (Service_valid service = false ->
         Service_errors service <> []
         /\ post_quotes validate_email generate_id (Some d) body
            = (Raise (ValidationError (Service_errors service)), Some d))
        /\ (Service_valid service = true ->
            (q_quantity q < minimum_quantity service ->
             post_quotes validate_email generate_id (Some d) body
             = (Raise (HTTPException 400
                         ("Minimum quantity is "
                          ++ pretty (minimum_quantity service))), Some d))
            /\ (minimum_quantity service <= q_quantity q ->
                exists res d',
                  post_quotes validate_email generate_id (Some d) body
                  = (Ok res, Some d')
                  /\ length (coll_quoterequest d')
                     = S (length (coll_quoterequest d))))).
Proof.
  intros Hq. pose proof (validated_bounds _ _ _ Hq) as [Hqty Hcol].
  unfold post_quotes. rewrite Hq. unfold create_quote.
  assert (Hbig : 100000 < int_max) by done.
  destruct (find_one_service d (q_service_key q)) as [service|] eqn:Hfind.
  - destruct (Service_valid service) eqn:Hvalid.
    + pose proof (calculate_price_in_range d (PriceRequest_of_quote q)
                    service Hfind Hvalid) as Hprice.
      cbn [PriceRequest_of_quote colors quantity] in Hprice.
      pose proof (calculate_price_found d (PriceRequest_of_quote q) service
                    Hfind Hvalid) as Hcalc.
      destruct (Z.lt_ge_cases (q_quantity q) (minimum_quantity service))
        as [Hlow|Hhigh].
      * assert (calculate_price (Some d) (PriceRequest_of_quote q)
                = Raise (HTTPException 400
                           ("Minimum quantity is "
                            ++ pretty (minimum_quantity service)))) as ->.
        { rewrite Hcalc. unfold pre_discount_unit_price, int_mul_float.
          cbn [PriceRequest_of_quote colors quantity].
          destruct (int_to_float_range (Z.max 0 (q_colors q - 1)))
            as [Hc _].
          rewrite Hc by lia.
          unfold_result. by rewrite (proj2 (Z.ltb_lt _ _)). }
        split; [done|]. split; [done|]. intros service' [= <-].
        split; [intros Habs; congruence|]. intros _. split; [done|lia].
      * destruct Hprice as [resp Hresp]; [lia..|]. rewrite Hresp.
        unfold create_document_quoterequest.
        split; [done|]. split; [done|]. intros service' [= <-].
        split; [intros Habs; congruence|]. intros _.
        split; [lia|]. intros _. eexists _, _. split; [done|].
        cbn. rewrite length_app. simpl. lia.
    + destruct (calculate_price_invalid d (PriceRequest_of_quote q) service
                  Hfind Hvalid) as [-> Hne].
      split; [done|]. split; [done|]. intros service' [= <-].
      split; [done|]. intros Habs. congruence.
  - assert (calculate_price (Some d) (PriceRequest_of_quote q)
            = Raise (HTTPException 404 "Service not found")) as ->.
    { unfold calculate_price. cbn [PriceRequest_of_quote service_key].
      by rewrite Hfind. }
    split; [done|]. split; [done|]. by intros service.
Qed.

Lemma post_quotes_outcomes_witness :
  let validate_email := fun s : string =>
    if String.eqb s "ada@example.org" then Some s else None in
  let body := {| in_customer_name := "Ada";
                 in_customer_email := "ada@example.org";
                 in_service_key := "tshirt"; in_quantity := 100;
                 in_colors := Some 3; in_print_area := None;
                 in_notes := None; in_estimated_total := None |} in
  let q := {| customer_name := "Ada"; customer_email := "ada@example.org";
              q_service_key := "tshirt"; q_quantity := 100; q_colors := 3;
              q_print_area := "medium"; notes := None;
              estimated_total := None |} in
  QuoteRequest_validate validate_email body = Ok q
  /\ find_one_service seeded (q_service_key q) = Some tshirt
  /\ Service_valid tshirt = true
  /\ minimum_quantity tshirt <= q_quantity q
  /\ exists res d',
       post_quotes validate_email (fun _ => "id") (Some seeded) body
       = (Ok res, Some d')
       /\ length (coll_quoterequest d')
          = S (length (coll_quoterequest seeded)).
Proof.
  intros validate_email body q.
  assert (Hq : QuoteRequest_validate validate_email body = Ok q)
    by reflexivity.
  assert (Hfind : find_one_service seeded (q_service_key q) = Some tshirt)
    by reflexivity.
  assert (Hvalid : Service_valid tshirt = true) by (vm_compute; reflexivity).
  assert (Hmin : minimum_quantity tshirt <= q_quantity q)
    by (vm_compute; discriminate).
  split; [exact Hq|]. split; [exact Hfind|]. split; [exact Hvalid|].
  split; [exact Hmin|].
  exact (proj2 (proj2 (proj2 (proj2 (post_quotes_outcomes
                                        validate_email
                                        (fun _ => "id") seeded body q Hq))
                         tshirt Hfind) Hvalid) Hmin).
Defined.

(** ** Rounding a rounded price again *)

Lemma nearest_unique X step n k :
  0 < step -> nearest X step n -> nearest X step k -> n = k.
Proof.
  intros Hs Hn Hk.
  pose proof (nearest_mono X X step n k Hs ltac:(lia) Hn Hk).
  pose proof (nearest_mono X X step k n Hs ltac:(lia) Hk Hn). lia.
Qed.

Lemma grain_units :
  exists T,
    0 < T /\ 2 ^ bias = 128 * T /\ grain (-7) = 100 * T
    /\ grain (-6) = 200 * T /\ grain 45 = 100 * 2 ^ 52 * T
    /\ grain 46 = 100 * 2 ^ 53 * T.
Proof. exists (2 ^ 2193). repeat split; vm_compute; reflexivity. Qed.

Lemma py_round_fixed my ey n :
  bounded F64.prec F64.emax my ey = true ->
  nearest (val my ey) (2 ^ bias) (Z.pos n) ->
  rounds_to (Z.pos n * 2 ^ bias) (S754_finite false my ey) ->
  py_round (S754_finite false my ey) 2 = S754_finite false my ey.
Proof.
  intros Hb Hnear Hround.
  destruct (scaled_nearest_cases _ _ Hb) as [Hnear' Hcase].
  assert (0 < 2 ^ bias) as Hstep by done.
  pose proof (nearest_unique _ _ _ _ Hstep Hnear' Hnear) as Hsn.
  destruct Hcase as [[Hz _]|(n' & Hn' & ->)]; [congruence|].
  assert (n' = n) as -> by congruence.
  eapply rounds_to_unique; [apply div_100_spec|done].
Qed.

Lemma encode_val n fe :
  1 <= n <= 2 ^ 53 -> fe <= 900 -> - bias <= fe ->
  exists m e,
    encode n fe = S754_finite false m e /\ val m e = n * grain fe.
Proof.
  intros Hn Hfe Hb. unfold encode.
  rewrite (proj2 (Z.eqb_neq n 0)) by lia.
  destruct (Z.ltb_spec n (2 ^ 53)) as [Hlt|Hge].
  - rewrite (proj2 (Z.leb_le fe 971)) by lia.
    eexists _, _. split; [done|]. unfold val. by rewrite Z2Pos.id by lia.
  - rewrite (proj2 (Z.leb_le (fe + 1) 971)) by lia.
    eexists _, _. split; [done|]. unfold val.
    rewrite grain_succ by done.
    assert (n = 2 ^ 53) as -> by lia.
    change (Z.pos (Z.to_pos (2 ^ 52))) with (2 ^ 52).
    change (2 ^ 53) with (2 * 2 ^ 52). lia.
Qed.

Lemma py_round_idempotent_pos m e :
  bounded F64.prec F64.emax m e = true ->
  py_round (py_round (S754_finite false m e) 2) 2
  = py_round (S754_finite false m e) 2.
Proof.
  intros Hb.
  destruct (scaled_nearest_cases _ _ Hb) as [Hnear Hcase].
  destruct Hcase as [[_ ->]|(p & Hp & Hy)]; [done|].
  rewrite Hp in Hnear.
  pose proof (div_100_spec p) as Hround. rewrite <- Hy in Hround.
  remember (py_round (S754_finite false m e) 2) as y eqn:Hydef.
  destruct grain_units as (T & HT & HS & Hg7 & Hg6 & Hg45 & Hg46).
  set (S := 2 ^ bias) in *.
  pose proof Hround as (d & k & Hd & HX & Hk & Hyk).
  assert (Hfe : fexp64 d = Z.max (d - 53) (-1074)) by apply fexp64_eq.
  set (fe := fexp64 d) in *.
  assert (Hbfe : - bias <= fe) by (unfold bias; lia).
  pose proof (grain_pos fe Hbfe) as Hg.
  pose proof (nearest_bounds _ _ _ Hd HX Hk) as [Hkb _].
  assert (HpS : S <= Z.pos p * S) by nia.
  destruct (Z.le_gt_cases d 46) as [Hsmall|Hlarge].
  - (* the quotient is below 2^46: the float is within half a cent of it *)
    pose proof (grain_le fe (-7) ltac:(lia)) as Hgle.
    destruct Hk as [[Hk1 Hk2] Hk3].
    assert (1 <= k) as Hk1'.
    { destruct (Z.le_gt_cases 1 k); [done|].
      assert (k = 0) as -> by lia. lia. }
    destruct (encode_val k fe ltac:(lia) ltac:(lia) Hbfe)
      as (my & ey & Henc & Hval).
    rewrite Hyk, Henc.
    assert (Hby : bounded F64.prec F64.emax my ey = true).
    { pose proof (rounds_to_nonneg _ _ Hround) as Hnn.
      rewrite Hyk, Henc in Hnn. by destruct Hnn. }
    apply (py_round_fixed my ey p);
      [done| |rewrite <- Henc, <- Hyk; exact Hround].
    rewrite Hval. fold S. split; [lia|]. intros [?|?]; lia.
  - (* the quotient is at least 2^46: the float rounds to itself *)
    assert (y = S754_finite false m e) as Hfix;
      [|by rewrite Hfix at 1; rewrite <- Hydef].
    eapply rounds_to_unique; [exact Hround|].
    pose proof (grain_le 46 (d - 1) ltac:(unfold bias; lia)) as HX46.
    pose proof Hb as [Hc He]%bounded_canonical. rewrite fexp64_eq in Hc.
    pose proof (Zdigits2_bounds m) as [Hm1 Hm2].
    set (dm := Z.pos (digits2_pos m)) in *.
    destruct Hnear as [[Hn1 Hn2] Hn3]. fold S in Hn1, Hn2, Hn3.
    unfold val in Hn1, Hn2, Hn3.
    assert (Hbe : - bias <= e) by (unfold bias; lia).
    pose proof (grain_pos e Hbe) as Hge.
    assert (Hm53 : Z.pos m <= 2 ^ 53 - 1).
    { assert (2 ^ dm <= 2 ^ 53) by (apply Z.pow_le_mono_r; lia). lia. }
    assert (Hup : Z.pos m * grain e <= grain (e + 53) - grain e).
    { rewrite grain_add by lia.
      change (2 ^ 53) with 9007199254740992 in *. nia. }
    assert (He6 : -6 <= e).
    { destruct (Z.le_gt_cases (-6) e); [done|]. exfalso.
      destruct (Z.eq_dec e (-7)) as [->|Hne].
      - change (-7 + 53) with 46 in Hup. lia.
      - pose proof (grain_le (e + 53) 45 ltac:(unfold bias; lia)).
        change (2 ^ 52) with 4503599627370496 in *.
        change (2 ^ 53) with 9007199254740992 in *. lia. }
    assert (Hdm : dm = 53) by lia.
    rewrite Hdm in Hm1. change (2 ^ (53 - 1)) with (2 ^ 52) in Hm1.
    pose proof (grain_le (-6) e ltac:(unfold bias; lia)) as Hg6e.
    assert (Hlow : 2 ^ 52 * grain e <= Z.pos p * S).
    { destruct (Z.eq_dec (Z.pos m) (2 ^ 52)) as [Hm|Hm].
      - assert (Z.pos m * grain e = (100 * 2 ^ (52 + e)) * S) as Hexact.
        { rewrite Hm. unfold grain, S.
          replace (e + bias) with (52 + e + bias - 52) by lia.
          assert (2 ^ 52 * 2 ^ (52 + e + bias - 52) = 2 ^ (52 + e) * 2 ^ bias)
            as Hpow.
          { rewrite <- !Z.pow_add_r by (unfold bias; lia). f_equal. lia. }
          lia. }
        assert (nearest (Z.pos m * grain e) S (100 * 2 ^ (52 + e))) as Hex.
        { rewrite Hexact. split; [lia|]. intros [?|?]; lia. }
        assert (nearest (Z.pos m * grain e) S (Z.pos p)) as Hnp
          by (by split).
        assert (0 < S) as HSpos by lia.
        rewrite (nearest_unique _ _ _ _ HSpos Hnp Hex).
        rewrite <- Hexact, Hm. lia.
      - change (2 ^ 52) with 4503599627370496 in *. nia. }
    exists (53 + e), (Z.pos m).
    split; [unfold bias; lia|].
    rewrite fexp64_eq.
    replace (Z.max (53 + e - 53) (-1074)) with e by lia.
    split; [|split].
    + replace (53 + e - 1) with (e + 52) by lia.
      replace (53 + e) with (e + 53) by lia.
      rewrite (grain_add e 52), (grain_add e 53) by lia.
      split; [lia|]. rewrite grain_add in Hup by lia. lia.
    + split; [lia|]. intros [?|?]; lia.
    + unfold encode.
      rewrite (proj2 (Z.ltb_lt (Z.pos m) (2 ^ 53))) by lia.
      by rewrite (proj2 (Z.leb_le e 971)).
Qed.

Lemma py_round_idempotent x :
  nonneg x -> py_round (py_round x 2) 2 = py_round x 2.
Proof.
  destruct x as [s|s| |s m e]; try done.
  intros [-> Hb]. by apply py_round_idempotent_pos.
Qed.

(** X12. What [calculate_price] returns is already rounded to cents: for a
    service of the data model, rounding the unit price or the total to two
    places again changes nothing; and below 20 pieces, where no discount
    applies, the second rounding leaves the price before the discount as
    it is. *)
Theorem returned_prices_are_rounded d req service resp :
  Service_valid service = true ->
  Service_finite service = true ->
  find_one_service d (service_key req) = Some service ->
  calculate_price (Some d) req = Ok resp ->
  py_round (unit_price resp) 2 = unit_price resp
  /\ py_round (total_price resp) 2 = total_price resp
  /\ (quantity req < 20 ->
      pre_discount_unit_price service req = Ok (unit_price resp)).
Proof.
  intros Hvalid Hfinite Hfind Hresp.
  destruct (calculate_price_Ok _ _ _ _ Hfind Hresp)
    as (before & n & Hpre & Hmin & Hn & Hu & Ht).
  pose proof Hpre as Hpre'.
  apply pre_discount_Ok in Hpre' as (_ & Hx & Hfx & Hbefore).
  pose proof (price_of_extra_nonneg service (print_area req) _
                Hvalid Hfinite Hx Hfx) as Hnn.
  rewrite <- Hbefore in Hnn.
  assert (1 <= minimum_quantity service) as Hone.
  { unfold Service_valid in Hvalid. rewrite !andb_true_iff in Hvalid.
    apply Z.leb_le. tauto. }
  apply of_Z_positive in Hn as [-> Hpos]; [|lia].
  pose proof (applied_factor_positive (quantity req)) as Hfactor.
  pose proof (mul_mono_l_pos _ _ _ (le_nonneg_refl _ Hnn) Hfactor)
    as (Hprod & _ & _).
  rewrite volume_discount_factor in Hu by done.
  destruct (py_round_mono _ _
              (mul_mono_l_pos _ _ _ (le_nonneg_refl _ Hnn) Hfactor))
    as (Hunit & _ & _).
  rewrite <- Hu in Hunit.
  pose proof (mul_mono_l_pos _ _ _ (le_nonneg_refl _ Hunit) Hpos)
    as (Htot & _ & _).
  split; [|split].
  - rewrite Hu. by apply py_round_idempotent.
  - rewrite Ht. by apply py_round_idempotent.
  - intros Hq. rewrite Hpre. f_equal.
    destruct (calculate_price_Ok _ _ _ _ Hfind Hresp)
      as (before' & n' & Hpre' & _ & _ & Hu' & _).
    rewrite Hpre in Hpre'. injection Hpre' as <-.
    rewrite Hu', volume_discount_spec.
    unfold Spec.unit_price_after_discount, Spec.discount_factor.
    rewrite !(proj2 (Z.leb_gt _ _)) by lia.
    rewrite Hbefore. unfold price_of_extra. symmetry.
    apply py_round_idempotent.
    destruct (Service_fields_nonneg _ Hvalid Hfinite)
      as (Hb & Hfb & Hc & Hfc & _).
    destruct (area_multiplier_positive service (print_area req)
                Hvalid Hfinite) as (m & e & Ha & Hbound).
    rewrite Ha.
    assert (Hsum : nonneg (F64.add (base_price service)
                     (F64.mul (F64.of_Z (Z.max 0 (colors req - 1)))
                              (color_price_per_color service)))).
    { apply add_nonneg; [done..|].
      by destruct (mul_mono_l _ _ (color_price_per_color service)
                     (le_nonneg_refl _ Hx) Hc Hfc (or_introl Hfx)). }
    assert (Hm : positive_finite (S754_finite false m e)) by (by exists m, e).
    by destruct (mul_mono_l_pos _ _ _ (le_nonneg_refl _ Hsum) Hm).
Qed.

Lemma returned_prices_are_rounded_witness :
  let req := {| service_key := "tshirt"; quantity := 10; colors := 3;
                print_area := "small" |} in
  let resp := {| unit_price := F64.decimal 603 2;
                 total_price := F64.decimal 603 1;
                 breakdown :=
                   {| base := F64.of_Z 6; bd_colors := 3;
                      color_add_per_unit := F64.decimal 35 2;
                      area_multiplier := F64.decimal 9 1;
                      volume_discounts := true |} |} in
  Service_valid tshirt = true
  /\ Service_finite tshirt = true
  /\ find_one_service seeded (service_key req) = Some tshirt
  /\ calculate_price (Some seeded) req = Ok resp
  /\ py_round (unit_price resp) 2 = unit_price resp
  /\ py_round (total_price resp) 2 = total_price resp
  /\ (quantity req < 20 ->
      pre_discount_unit_price tshirt req = Ok (unit_price resp)).
Proof.
  intros req resp.
  assert (Hvalid : Service_valid tshirt = true) by (vm_compute; reflexivity).
  assert (Hfinite : Service_finite tshirt = true)
    by (vm_compute; reflexivity).
  assert (Hfind : find_one_service seeded (service_key req) = Some tshirt)
    by reflexivity.
  assert (Hrun : calculate_price (Some seeded) req = Ok resp)
    by (vm_compute; reflexivity).
  split; [exact Hvalid|]. split; [exact Hfinite|]. split; [exact Hfind|].
  split; [exact Hrun|].
  exact (returned_prices_are_rounded seeded req tshirt resp
           Hvalid Hfinite Hfind Hrun).
Defined.

(** ** Seeding, then quoting *)

Lemma find_default d s :
  coll_service d = defaults -> In s defaults ->
  find_one_service d (key s) = Some s
  /\ Service_valid s = true /\ Service_finite s = true
  /\ minimum_quantity s = 1.
Proof.
  intros Hcoll Hs. unfold find_one_service. rewrite Hcoll.
  simpl in Hs. destruct Hs as [<-|[<-|[<-|[]]]];
    (split; [reflexivity|split; [|split]; vm_compute; reflexivity]).
Qed.

(** X13. Seeding and quoting compose: once an empty catalog has been
    seeded, every body that [QuoteRequest] accepts for one of the three
    seeded services is answered with a stored quote, never with an error.
    The estimate is not negative, the quote is appended to the stored ones
    under the identifier returned, with the estimate written into it, and
    the catalog is left as seeded. *)
Theorem seeded_catalog_takes_every_valid_quote
    validate_email generate_id d body q s :
  coll_service d = [] ->
  QuoteRequest_validate validate_email body = Ok q ->
  In s defaults ->
  q_service_key q = key s ->
  exists res d',
    post_quotes validate_email generate_id
      (snd (seed_services generate_id (Some d))) body = (Ok res, Some d')
    /\ F64.leb (F64.of_Z 0) (r_estimated_total res) = true
    /\ coll_service d' = defaults
    /\ coll_quoterequest d'
       = (coll_quoterequest d
          ++ [(id res,
               set_estimated_total q (Some (r_estimated_total res)))])%list.
Proof.
  intros Hcoll Hq Hs Hkey.
  rewrite (seed_services_empty _ d Hcoll). cbn [snd].
  set (d1 := {| coll_service := defaults;
                coll_quoterequest := coll_quoterequest d |}).
  destruct (find_default d1 s eq_refl Hs) as (Hfind & Hvalid & Hfinite & Hmin).
  rewrite <- Hkey in Hfind.
  pose proof (validated_bounds _ _ _ Hq) as [Hqty Hcol].
  assert (Hbig : 100000 < int_max) by done.
  destruct (calculate_price_in_range d1 (PriceRequest_of_quote q) s)
    as [resp Hresp]; cbn [PriceRequest_of_quote colors quantity];
    [done|done|lia..|].
  destruct (calculate_price_nonneg d1 (PriceRequest_of_quote q) s resp
              Hvalid Hfinite Hfind Hresp) as [_ Htotal].
  unfold post_quotes. rewrite Hq. unfold create_quote. rewrite Hresp.
  unfold create_document_quoterequest.
  eexists _, _. split; [reflexivity|].
  cbn [r_estimated_total coll_service coll_quoterequest id d1].
  split; [by apply (nonneg_leb_zero false)|]. done.
Qed.

Lemma seeded_catalog_takes_every_valid_quote_witness :
  let validate_email := fun s : string =>
    if String.eqb s "ada@example.org" then Some s else None in
  let body := {| in_customer_name := "Ada";
                 in_customer_email := "ada@example.org";
                 in_service_key := "hoodie"; in_quantity := 60;
                 in_colors := Some 2; in_print_area := Some "large";
                 in_notes := None; in_estimated_total := None |} in
  let q := {| customer_name := "Ada"; customer_email := "ada@example.org";
              q_service_key := "hoodie"; q_quantity := 60; q_colors := 2;
              q_print_area := "large"; notes := None;
              estimated_total := None |} in
  let hoodie := {| key := "hoodie"; name := "Hoodie Printing";
                   description := Some "Premium hoodies with vivid prints";
                   base_price := F64.of_Z 12;
                   categories := ["apparel"; "hoodie"];
                   color_price_per_color := F64.decimal 4 1;
                   print_area_multiplier := F64.decimal 12 1;
                   minimum_quantity := 1 |} in
  let empty := {| coll_service := []; coll_quoterequest := [] |} in
  coll_service empty = []
  /\ QuoteRequest_validate validate_email body = Ok q
  /\ In hoodie defaults
  /\ q_service_key q = key hoodie
  /\ exists res d',
       post_quotes validate_email (fun _ => "id")
         (snd (seed_services (fun _ => "id") (Some empty))) body
       = (Ok res, Some d')
       /\ coll_service d' = defaults.
Proof.
  intros validate_email body q hoodie empty.
  assert (Hcoll : coll_service empty = []) by reflexivity.
  assert (Hq : QuoteRequest_validate validate_email body = Ok q)
    by reflexivity.
  assert (Hs : In hoodie defaults) by (right; right; left; reflexivity).
  assert (Hkey : q_service_key q = key hoodie) by reflexivity.
  split; [exact Hcoll|]. split; [exact Hq|]. split; [exact Hs|].
  split; [exact Hkey|].
  destruct (seeded_catalog_takes_every_valid_quote validate_email
              (fun _ => "id") empty body q hoodie Hcoll Hq Hs Hkey)
    as (res & d' & Hrun & _ & Hcat & _).
  by exists res, d'.
Defined.
